(** * wghttp: start-up orchestration of the WireGuard HTTP/SOCKS5 gateway

    A shallow embedding of [main.go]: the option table, [setupNet],
    [proxyDialer], [proxyListener] and [main].

    The program is glue around external libraries (go-flags, wireguard-go
    and its netstack, the Go [net] package) and around three functions of
    the repository that live in other files ([newConnBind], [ipcSet],
    [stats]).  Every call that leaves [main.go] is recorded in a trace of
    events; what such a call answers (success or an error) is read from a
    [Host], a record of oracles the theorems quantify over.  The two
    package-level variables [opts] and [logger] are fields of the [World]
    the code runs in. *)

From Stdlib Require Import String Ascii List ZArith Bool.
Import ListNotations.
Local Open Scope string_scope.
Local Open Scope Z_scope.

(** ** Errors

    Go errors are values.  [fmt.Errorf] without a [%w] verb makes a fresh
    error; with a trailing [%w] it makes an error that wraps its argument
    and whose text is the format's prefix followed by the argument's text. *)

Inductive error : Type :=
| ErrNew (msg : string)
| ErrWrap (msg : string) (cause : error).

Definition errMsg (e : error) : string :=
  match e with
  | ErrNew m => m
  | ErrWrap m _ => m
  end.

Definition Unwrap (e : error) : option error :=
  match e with
  | ErrNew _ => None
  | ErrWrap _ c => Some c
  end.

(** [fmt.Errorf(msg)] *)
Definition Errorf (msg : string) : error := ErrNew msg.

(** [fmt.Errorf(prefix + "%w", err)] *)
Definition Errorf_w (prefix : string) (err : error) : error :=
  ErrWrap (prefix ++ errMsg err) err.

(** A Go [(T, error)] pair of which exactly one side is set. *)
Inductive result (A : Type) : Type :=
| Ok (a : A)
| Err (e : error).
Arguments Ok {A} a.
Arguments Err {A} e.

(** ** Data of the external libraries, as symbolic handles

    A handle records the arguments it was built from, so a theorem can say
    which stack a listener lives on or which binding a device runs over. *)

(** [netip.Addr] *)
Inductive Addr : Type :=
| Addr4 (a b c d : Z)
| Addr6 (segments : list Z) (zone : string).

(** [*net.TCPAddr] *)
Record TCPAddr : Type := mkTCPAddr { tcp_ip : Addr; tcp_port : Z }.

(** [*netstack.Net]: the userspace stack made by [netstack.CreateNetTUN]. *)
Record Net : Type := mkNet {
  net_addrs : list Addr;
  net_dns : list Addr;
  net_mtu : Z
}.

(** [tun.Device]: the packet side of the same userspace stack. *)
Inductive Tun : Type := TunOf (n : Net).

(** [device.LogLevel*] and [*device.Logger] *)
Inductive LogLevel : Type := LogLevelSilent | LogLevelError | LogLevelVerbose.

Record Logger : Type := NewLogger { log_level : LogLevel }.

(** Modelled from the spec: [newConnBind] is defined in a file of the
    repository other than [main.go].  The Connection Binder's contract is
    [bind(instanceIdentity) -> SocketBinding]; the binding is kept as a
    handle on the identity it was made for. *)
Record Bind : Type := newConnBind { bind_clientID : string }.

(** [*device.Device], as built by [device.NewDevice(tun, bind, logger)]. *)
Record Device : Type := NewDevice {
  dev_tun : Tun;
  dev_bind : Bind;
  dev_logger : option Logger
}.

(** The two network stacks a socket can live on. *)
Inductive Stack : Type :=
| HostStack
| VirtualStack (tnet : Net).

(** [net.Listener], as returned by [net.ListenTCP] or [tnet.ListenTCP]. *)
Record Listener : Type := mkListener { lis_stack : Stack; lis_addr : TCPAddr }.

(** A dial function: the method value [d.DialContext] of a zero
    [net.Dialer], or the method value [tnet.DialContext]. *)
Inductive Dialer : Type :=
| HostDialContext
| NetDialContext (tnet : Net).

Definition dialer_stack (d : Dialer) : Stack :=
  match d with
  | HostDialContext => HostStack
  | NetDialContext tnet => VirtualStack tnet
  end.

(** Modelled from the spec: [stats] is defined in a file of the repository
    other than [main.go]; the Proxy Server takes it as its statistics
    callback.  Kept as a handle on the device it reads. *)
Inductive Stats : Type := stats (dev : Device).

(** [proxy.Proxy] *)
Record Proxy : Type := mkProxy {
  Dial : option Dialer;
  DNS_ : string;
  Stats_ : Stats
}.

(** ** The option record (lines 29-49) *)

Record options : Type := mkOptions {
  ClientIPs : list string;
  ClientPort : Z;
  PrivateKey : string;
  DNS : string;
  MTU : Z;
  PeerEndpoint : string;
  PeerKey : string;
  PresharedKey : string;
  KeepaliveInterval : Z;   (* time.Duration, nanoseconds *)
  ResolveDNS : string;
  ResolveInterval : Z;     (* time.Duration, nanoseconds *)
  Listen : string;
  ExitMode : string;
  Verbose : bool;
  ClientID : string
}.

(** The zero value of [options], which [opts] holds before [Parse]. *)
Definition zeroOptions : options :=
  mkOptions [] 0 EmptyString EmptyString 0 EmptyString EmptyString
            EmptyString 0 EmptyString 0 EmptyString EmptyString false
            EmptyString.

(** ** go-flags: the struct tags of [options] and what the parser reports *)

Module Flags.

(** [flags.ErrorType] *)
Inductive ErrorType : Type :=
| ErrUnknown | ErrExpectedArgument | ErrUnknownFlag | ErrUnknownGroup
| ErrMarshal | ErrHelp | ErrNoArgumentForBool | ErrRequired
| ErrShortNameTooLong | ErrDuplicatedFlag | ErrTag | ErrCommandRequired
| ErrUnknownCommand | ErrInvalidChoice | ErrInvalidTag.

Definition ErrorType_eqb (a b : ErrorType) : bool :=
  match a, b with
  | ErrUnknown, ErrUnknown | ErrExpectedArgument, ErrExpectedArgument
  | ErrUnknownFlag, ErrUnknownFlag | ErrUnknownGroup, ErrUnknownGroup
  | ErrMarshal, ErrMarshal | ErrHelp, ErrHelp
  | ErrNoArgumentForBool, ErrNoArgumentForBool | ErrRequired, ErrRequired
  | ErrShortNameTooLong, ErrShortNameTooLong
  | ErrDuplicatedFlag, ErrDuplicatedFlag | ErrTag, ErrTag
  | ErrCommandRequired, ErrCommandRequired
  | ErrUnknownCommand, ErrUnknownCommand
  | ErrInvalidChoice, ErrInvalidChoice | ErrInvalidTag, ErrInvalidTag => true
  | _, _ => false
  end.

(** What [parser.Parse] can return as its error: a [*flags.Error] with its
    [Type] field, or an error of another dynamic type. *)
Inductive ParseError : Type :=
| FlagsError (ty : ErrorType) (msg : string)
| OtherError (e : error).

(** The tags of one field of [options].  [description] tags are help text
    only and are left out. *)
Record OptionSpec : Type := mkSpec {
  field : string;
  short : string;
  long : string;
  env : string;
  env_delim : string;
  default : option string;
  choices : list string;
  hidden : bool
}.

(** No tag of that kind on the field. *)
Definition none : string := EmptyString.

Definition spec (f l e : string) : OptionSpec :=
  mkSpec f none l e none None [] false.

Definition specs : list OptionSpec :=
  [ mkSpec "ClientIPs" none "client-ip" "CLIENT_IP" "," None [] false;
    spec "ClientPort" "client-port" "CLIENT_PORT";
    spec "PrivateKey" "private-key" "PRIVATE_KEY";
    spec "DNS" "dns" "DNS";
    mkSpec "MTU" none "mtu" "MTU" none (Some "1280") [] false;
    spec "PeerEndpoint" "peer-endpoint" "PEER_ENDPOINT";
    spec "PeerKey" "peer-key" "PEER_KEY";
    spec "PresharedKey" "preshared-key" "PRESHARED_KEY";
    spec "KeepaliveInterval" "keepalive-interval" "KEEPALIVE_INTERVAL";
    spec "ResolveDNS" "resolve-dns" "RESOLVE_DNS";
    mkSpec "ResolveInterval" none "resolve-interval" "RESOLVE_INTERVAL" none
           (Some "1m") [] false;
    mkSpec "Listen" none "listen" "LISTEN" none (Some "localhost:8080") []
           false;
    mkSpec "ExitMode" none "exit-mode" "EXIT_MODE" none (Some "remote")
           ["remote"; "local"] false;
    mkSpec "Verbose" "v" "verbose" none none None [] false;
    mkSpec "ClientID" none "client-id" "CLIENT_ID" none None [] true ].

Fixpoint lookup (l : list OptionSpec) (name : string) : option OptionSpec :=
  match l with
  | [] => None
  | s :: rest => if String.eqb (long s) name then Some s else lookup rest name
  end.

Fixpoint mem (v : string) (l : list string) : bool :=
  match l with
  | [] => false
  | c :: rest => String.eqb c v || mem v rest
  end.

(** go-flags checks a value against the [choice] tags only when the option
    has any. *)
Definition accepts (s : OptionSpec) (v : string) : bool :=
  match choices s with
  | [] => true
  | _ :: _ => mem v (choices s)
  end.

(** The value of the [default] tag of the option named [name]. *)
Definition defaultOf (name : string) : option string :=
  match lookup specs name with
  | Some s => default s
  | None => None
  end.

Definition acceptsValue (name v : string) : bool :=
  match lookup specs name with
  | Some s => accepts s v
  | None => false
  end.

Definition isHidden (name : string) : bool :=
  match lookup specs name with
  | Some s => hidden s
  | None => false
  end.

(** The options the help text lists. *)
Definition visible : list string :=
  map long (filter (fun s => negb (hidden s)) specs).

End Flags.

(** ** The host: oracles for the calls that leave [main.go] *)

Record Host : Type := mkHost {
  (** [parser.Parse()] on this command line and environment *)
  hParse : Flags.ParseError + options;
  (** [netip.ParseAddr] *)
  hParseAddr : string -> result Addr;
  (** whether [netstack.CreateNetTUN(addrs, dns, mtu)] fails *)
  hCreateNetTUN : list Addr -> list Addr -> Z -> option error;
  (** Modelled from the spec: [ipcSet] is defined in a file of the
      repository other than [main.go]; it applies the configuration to the
      session and reports whether that was rejected. *)
  hIpcSet : Device -> option error;
  (** whether [dev.Up()] fails *)
  hUp : Device -> option error;
  (** [net.ResolveTCPAddr("tcp", s)] *)
  hResolveTCPAddr : string -> result TCPAddr;
  (** whether [net.ListenTCP] / [tnet.ListenTCP] fails on a stack *)
  hListenTCP : Stack -> TCPAddr -> option error;
  (** whether [proxier.Serve(listener)] ever returns *)
  hServeReturns : Proxy -> Listener -> bool
}.

(** ** The world: package-level variables and the trace of calls *)

Inductive LogArg : Type :=
| ArgOptions (o : options)
| ArgError (e : error)
| ArgAddr (a : TCPAddr).

Inductive Event : Type :=
| EvCreateNetTUN (addrs dns : list Addr) (mtu : Z)
| EvNewConnBind (clientID : string)
| EvNewDevice (tun : Tun) (bind : Bind) (lg : option Logger)
| EvIpcSet (dev : Device)
| EvUp (dev : Device)
| EvResolveTCPAddr (address : string)
| EvListenTCP (on : Stack) (addr : TCPAddr)
| EvLog (lvl : LogLevel) (format : string) (arg : LogArg)
| EvServe (p : Proxy) (l : Listener).

Record World : Type := mkWorld {
  opts : options;
  logger : option Logger;
  trace : list Event
}.

(** The world [main] starts in. *)
Definition initWorld : World := mkWorld zeroOptions None [].

(** How a call ends: it returns, the process exits ([os.Exit]), a run-time
    panic unwinds it, or it never comes back. *)
Inductive outcome (A : Type) : Type :=
| Returned (a : A)
| Exited (code : Z)
| Panicked
| Blocked.
Arguments Returned {A} a.
Arguments Exited {A} code.
Arguments Panicked {A}.
Arguments Blocked {A}.

Definition Go (A : Type) : Type := World -> outcome A * World.

Definition ret {A} (a : A) : Go A := fun w => (Returned a, w).

Definition bind {A B} (m : Go A) (k : A -> Go B) : Go B :=
  fun w =>
    match m w with
    | (Returned a, w') => k a w'
    | (Exited c, w') => (Exited c, w')
    | (Panicked, w') => (Panicked, w')
    | (Blocked, w') => (Blocked, w')
    end.

Notation "x <- m ;; k" := (bind m (fun x => k))
  (at level 61, m at next level, right associativity).
Notation "m ;;; k" := (bind m (fun _ => k))
  (at level 61, right associativity).

Definition getOpts : Go options := fun w => (Returned (opts w), w).
Definition setOpts (o : options) : Go unit :=
  fun w => (Returned tt, mkWorld o (logger w) (trace w)).
Definition getLogger : Go (option Logger) := fun w => (Returned (logger w), w).
Definition setLogger (l : Logger) : Go unit :=
  fun w => (Returned tt, mkWorld (opts w) (Some l) (trace w)).
Definition emit (e : Event) : Go unit :=
  fun w => (Returned tt, mkWorld (opts w) (logger w) (trace w ++ [e])).
Definition osExit {A} (code : Z) : Go A := fun w => (Exited code, w).
Definition panic {A} : Go A := fun w => (Panicked, w).
Definition block {A} : Go A := fun w => (Blocked, w).

(** [logger.Verbosef]: a nil [logger] is dereferenced (panic); the logger
    made by [device.NewLogger] prints only at [LogLevelVerbose]. *)
Definition Verbosef (format : string) (arg : LogArg) : Go unit :=
  lg <- getLogger ;;
  match lg with
  | None => panic
  | Some l =>
      match log_level l with
      | LogLevelVerbose => emit (EvLog LogLevelVerbose format arg)
      | _ => ret tt
      end
  end.

(** [logger.Errorf]: prints at [LogLevelError] and above. *)
Definition Errorf_log (format : string) (arg : LogArg) : Go unit :=
  lg <- getLogger ;;
  match lg with
  | None => panic
  | Some l =>
      match log_level l with
      | LogLevelSilent => ret tt
      | _ => emit (EvLog LogLevelError format arg)
      end
  end.

(** ** The program *)

Section Program.

Variable h : Host.

(** External calls: each leaves an event and answers from the host. *)

Definition CreateNetTUN (addrs dns : list Addr) (mtu : Z)
  : Go (result (Tun * Net)) :=
  emit (EvCreateNetTUN addrs dns mtu) ;;;
  match hCreateNetTUN h addrs dns mtu with
  | Some e => ret (Err e)
  | None => let n := mkNet addrs dns mtu in ret (Ok (TunOf n, n))
  end.

Definition callNewConnBind (clientID : string) : Go Bind :=
  emit (EvNewConnBind clientID) ;;; ret (newConnBind clientID).

Definition callNewDevice (tun : Tun) (b : Bind) (lg : option Logger)
  : Go Device :=
  emit (EvNewDevice tun b lg) ;;; ret (NewDevice tun b lg).

Definition ipcSet (dev : Device) : Go (option error) :=
  emit (EvIpcSet dev) ;;; ret (hIpcSet h dev).

Definition Up (dev : Device) : Go (option error) :=
  emit (EvUp dev) ;;; ret (hUp h dev).

Definition ResolveTCPAddr (address : string) : Go (result TCPAddr) :=
  emit (EvResolveTCPAddr address) ;;; ret (hResolveTCPAddr h address).

Definition ListenTCP (on : Stack) (addr : TCPAddr) : Go (result Listener) :=
  emit (EvListenTCP on addr) ;;;
  match hListenTCP h on addr with
  | Some e => ret (Err e)
  | None => ret (Ok (mkListener on addr))
  end.

Definition Serve (p : Proxy) (l : Listener) : Go unit :=
  emit (EvServe p l) ;;;
  if hServeReturns h p l then ret tt else block.

(** [parser.Parse()]: on success [opts] holds the parsed options. *)
Definition Parse : Go (option Flags.ParseError) :=
  match hParse h with
  | inl e => ret (Some e)
  | inr o => setOpts o ;;; ret None
  end.

(** Lines 136-143: the loop over [opts.ClientIPs]; [clientIPs] is the
    slice appended to so far. *)
Fixpoint parseClientIPs (ss : list string) (clientIPs : list Addr)
  : result (list Addr) :=
  match ss with
  | [] => Ok clientIPs
  | s :: rest =>
      match hParseAddr h s with
      | Err err => Err (Errorf_w "parse client IP: " err)
      | Ok ip => parseClientIPs rest (clientIPs ++ [ip])
      end
  end.

(** Lines 132-160.  The Go triple [(dev, tnet, err)] is [Ok (dev, tnet)]
    when [err] is nil and [Err err] otherwise (both pointers are nil then). *)
Definition setupNet : Go (result (Device * Net)) :=
  o <- getOpts ;;
  if (List.length (ClientIPs o) =? 0)%nat then
    ret (Err (Errorf "client IP is required"))
  else
    match parseClientIPs (ClientIPs o) [] with
    | Err err => ret (Err err)
    | Ok clientIPs =>
        r <- CreateNetTUN clientIPs [] (MTU o) ;;
        match r with
        | Err err => ret (Err (Errorf_w "create netstack tun: " err))
        | Ok (tun, tnet) =>
            b <- callNewConnBind (ClientID o) ;;
            lg <- getLogger ;;
            dev <- callNewDevice tun b lg ;;
            e1 <- ipcSet dev ;;
            match e1 with
            | Some err => ret (Err (Errorf_w "config device: " err))
            | None =>
                e2 <- Up dev ;;
                match e2 with
                | Some err => ret (Err (Errorf_w "bring up device: " err))
                | None => ret (Ok (dev, tnet))
                end
            end
        end
    end.

(** Lines 97-106.  The named result [dialer] starts out nil. *)
Definition proxyDialer (tnet : Net) : Go (option Dialer) :=
  o <- getOpts ;;
  if String.eqb (ExitMode o) "local" then ret (Some HostDialContext)
  else if String.eqb (ExitMode o) "remote" then ret (Some (NetDialContext tnet))
  else ret None.

(** Lines 108-130.  [tcpListener] starts out nil; calling [Addr] on a nil
    interface value panics. *)
Definition proxyListener (tnet : Net) : Go (result Listener) :=
  o <- getOpts ;;
  r <- ResolveTCPAddr (Listen o) ;;
  match r with
  | Err err => ret (Err (Errorf_w "resolve listen addr: " err))
  | Ok tcpAddr =>
      let logAndReturn (tcpListener : option Listener) : Go (result Listener) :=
        match tcpListener with
        | None => panic
        | Some l =>
            Verbosef "Listening on %s" (ArgAddr (lis_addr l)) ;;;
            ret (Ok l)
        end in
      if String.eqb (ExitMode o) "local" then
        r <- ListenTCP (VirtualStack tnet) tcpAddr ;;
        match r with
        | Err err => ret (Err (Errorf_w "create listener on netstack: " err))
        | Ok l => logAndReturn (Some l)
        end
      else if String.eqb (ExitMode o) "remote" then
        r <- ListenTCP HostStack tcpAddr ;;
        match r with
        | Err err => ret (Err (Errorf_w "create listener on local net: " err))
        | Ok l => logAndReturn (Some l)
        end
      else logAndReturn None
  end.

(** Lines 77-95: what [main] does once the options are parsed and the
    logger is set. *)
Definition serveProxy : Go unit :=
  r <- setupNet ;;
  match r with
  | Err err =>
      Errorf_log "Setup netstack: %v" (ArgError err) ;;;
      osExit 1
  | Ok (dev, tnet) =>
      r <- proxyListener tnet ;;
      match r with
      | Err err =>
          Errorf_log "Create net listener: %v" (ArgError err) ;;;
          osExit 1
      | Ok listener =>
          d <- proxyDialer tnet ;;
          o <- getOpts ;;
          let proxier := mkProxy d (DNS o) (stats dev) in
          Serve proxier listener ;;;
          osExit 1
      end
  end.

(** The exit code chosen at lines 62-67. *)
Definition parseErrorCode (err : Flags.ParseError) : Z :=
  match err with
  | Flags.FlagsError fe _ =>
      if Flags.ErrorType_eqb fe Flags.ErrHelp then 0 else 1
  | Flags.OtherError _ => 1
  end.

(** Lines 51-95.  Lines 53-60 only assemble the usage text from the
    embedded README and are left out. *)
Definition main : Go unit :=
  perr <- Parse ;;
  match perr with
  | Some err => osExit (parseErrorCode err)
  | None =>
      o <- getOpts ;;
      (if Verbose o then setLogger (NewLogger LogLevelVerbose)
       else setLogger (NewLogger LogLevelError)) ;;;
      Verbosef "Options: %+v" (ArgOptions o) ;;;
      serveProxy
  end.

End Program.

(** ** A sample host, to run the model on concrete configurations

    Its address parser reads dotted-quad IPv4 text (four decimal fields of
    at most 255, no leading zero) and rejects everything else; listening on
    port 0 of the virtual stack and configuring a device whose binding has
    the identity ["bad"] fail; every other call succeeds. *)

Module Sample.

Definition digit (c : ascii) : option Z :=
  let n := Z.of_nat (nat_of_ascii c) in
  if (48 <=? n) && (n <=? 57) then Some (n - 48) else None.

(** [fields]: the octets read so far; [val] and [digLen]: the value and
    the number of digits of the octet being read. *)
Fixpoint parseIPv4 (s : string) (fields : list Z) (val : Z) (digLen : nat)
  : result Addr :=
  match s with
  | EmptyString =>
      match fields, digLen with
      | [a; b; c], S _ => Ok (Addr4 a b c val)
      | _, _ => Err (ErrNew "ParseAddr: not a dotted quad")
      end
  | String ch rest =>
      match digit ch with
      | Some d =>
          if (Nat.eqb digLen 1) && (val =? 0) then
            Err (ErrNew "ParseAddr: IPv4 field has octet with leading zero")
          else if 255 <? val * 10 + d then
            Err (ErrNew "ParseAddr: IPv4 field has value >255")
          else parseIPv4 rest fields (val * 10 + d) (S digLen)
      | None =>
          if Ascii.eqb ch "."%char then
            match digLen with
            | O => Err (ErrNew "ParseAddr: IPv4 field is empty")
            | S _ => parseIPv4 rest (fields ++ [val]) 0 O
            end
          else Err (ErrNew "ParseAddr: unexpected character")
      end
  end.

Definition ParseAddr (s : string) : result Addr := parseIPv4 s [] 0 O.

Definition loopback (port : Z) : TCPAddr := mkTCPAddr (Addr4 127 0 0 1) port.

Definition ResolveTCPAddr (s : string) : result TCPAddr :=
  if String.eqb s "localhost:8080" then Ok (loopback 8080)
  else if String.eqb s "127.0.0.1:8080" then Ok (loopback 8080)
  else if String.eqb s "127.0.0.1:0" then Ok (loopback 0)
  else Err (ErrNew "missing port in address").

Definition ListenTCP (on : Stack) (a : TCPAddr) : option error :=
  match on with
  | VirtualStack _ =>
      if tcp_port a =? 0 then Some (ErrNew "listen: bad port") else None
  | HostStack => None
  end.

Definition IpcSet (dev : Device) : option error :=
  if String.eqb (bind_clientID (dev_bind dev)) "bad"
  then Some (ErrNew "IPC error -22: failed to set private_key")
  else None.

(** The configuration of the spec's end-to-end scenario. *)
Definition config (mode : string) : options :=
  mkOptions ["10.0.0.2"] 0 "cHJpdmF0ZQ==" EmptyString 1280
            "vpn.example.com:51820" "cHVibGlj" EmptyString 0
            EmptyString 60000000000 "127.0.0.1:8080" mode false EmptyString.

Definition host (parsed : Flags.ParseError + options) : Host :=
  mkHost parsed ParseAddr (fun _ _ _ => None) IpcSet (fun _ => None)
         ResolveTCPAddr ListenTCP (fun _ _ => true).

(** A world in which [main] has stored [o] and made a quiet logger. *)
Definition world (o : options) : World :=
  mkWorld o (Some (NewLogger LogLevelError)) [].

Definition withClientIPs (ips : list string) (o : options) : options :=
  mkOptions ips (ClientPort o) (PrivateKey o) (DNS o) (MTU o)
            (PeerEndpoint o) (PeerKey o) (PresharedKey o)
            (KeepaliveInterval o) (ResolveDNS o) (ResolveInterval o)
            (Listen o) (ExitMode o) (Verbose o) (ClientID o).

Definition withClientID (id : string) (o : options) : options :=
  mkOptions (ClientIPs o) (ClientPort o) (PrivateKey o) (DNS o) (MTU o)
            (PeerEndpoint o) (PeerKey o) (PresharedKey o)
            (KeepaliveInterval o) (ResolveDNS o) (ResolveInterval o)
            (Listen o) (ExitMode o) (Verbose o) id.

End Sample.

(** ** Reading a trace *)

(** The listeners asked for, with the stack each was asked of. *)
Fixpoint listens (t : list Event) : list (Stack * TCPAddr) :=
  match t with
  | [] => []
  | EvListenTCP on a :: rest => (on, a) :: listens rest
  | _ :: rest => listens rest
  end.

(** The devices [Up] was called on. *)
Fixpoint activations (t : list Event) : list Device :=
  match t with
  | [] => []
  | EvUp dev :: rest => dev :: activations rest
  | _ :: rest => activations rest
  end.

(** A virtual stack or a tunnel session is being made. *)
Definition buildsTunnel (e : Event) : bool :=
  match e with
  | EvCreateNetTUN _ _ _ | EvNewConnBind _ | EvNewDevice _ _ _ => true
  | _ => false
  end.

(** The proxy is being given a socket or started. *)
Definition startsProxy (e : Event) : bool :=
  match e with
  | EvResolveTCPAddr _ | EvListenTCP _ _ | EvServe _ _ => true
  | _ => false
  end.

(** ** The stages of [setupNet], read back from an error's text *)

Inductive Stage : Type :=
| StageRequireClientIP
| StageParseClientIP
| StageCreateStack
| StageConfigure
| StageActivate.

Definition stageOf (e : error) : option Stage :=
  let m := errMsg e in
  if String.eqb m "client IP is required" then Some StageRequireClientIP
  else if String.prefix "parse client IP: " m then Some StageParseClientIP
  else if String.prefix "create netstack tun: " m then Some StageCreateStack
  else if String.prefix "config device: " m then Some StageConfigure
  else if String.prefix "bring up device: " m then Some StageActivate
  else None.

(** The world [main] calls [setupNet] in after a successful [Parse] that
    stored [o]: [logger] is set, and the options are logged if verbose. *)
Definition parsedWorld (w : World) (o : options) : World :=
  if Verbose o then
    mkWorld o (Some (NewLogger LogLevelVerbose))
            (trace w ++ [EvLog LogLevelVerbose "Options: %+v" (ArgOptions o)])
  else mkWorld o (Some (NewLogger LogLevelError)) (trace w).

(** The world after further calls: the package variables are untouched. *)
Definition addTrace (w : World) (evs : list Event) : World :=
  mkWorld (opts w) (logger w) (trace w ++ evs).

(** The session [setupNet] builds in [w] for the parsed addresses [ips]:
    its virtual stack and its device. *)
Definition sessionNet (w : World) (ips : list Addr) : Net :=
  mkNet ips [] (MTU (opts w)).

Definition sessionDevice (w : World) (ips : list Addr) : Device :=
  NewDevice (TunOf (sessionNet w ips)) (newConnBind (ClientID (opts w)))
            (logger w).

(** What went wrong when [setupNet], run in [w], reports [e] from stage
    [st]: the stages before it went through, and the call of that stage
    failed with the error that [e] wraps. *)
Definition stage_cause (h : Host) (w : World) (st : Stage) (e : error)
  : Prop :=
  let o := opts w in
  match st with
  | StageRequireClientIP =>
      ClientIPs o = [] /\ e = Errorf "client IP is required"
  | StageParseClientIP =>
      exists pre s post e0,
        ClientIPs o = (pre ++ s :: post)%list
        /\ Forall (fun s' => exists ip, hParseAddr h s' = Ok ip) pre
        /\ hParseAddr h s = Err e0
        /\ e = Errorf_w "parse client IP: " e0
  | StageCreateStack =>
      exists ips e0,
        ClientIPs o <> []
        /\ parseClientIPs h (ClientIPs o) [] = Ok ips
        /\ hCreateNetTUN h ips [] (MTU o) = Some e0
        /\ e = Errorf_w "create netstack tun: " e0
  | StageConfigure =>
      exists ips e0,
        ClientIPs o <> []
        /\ parseClientIPs h (ClientIPs o) [] = Ok ips
        /\ hCreateNetTUN h ips [] (MTU o) = None
        /\ hIpcSet h (sessionDevice w ips) = Some e0
        /\ e = Errorf_w "config device: " e0
  | StageActivate =>
      exists ips e0,
        ClientIPs o <> []
        /\ parseClientIPs h (ClientIPs o) [] = Ok ips
        /\ hCreateNetTUN h ips [] (MTU o) = None
        /\ hIpcSet h (sessionDevice w ips) = None
        /\ hUp h (sessionDevice w ips) = Some e0
        /\ e = Errorf_w "bring up device: " e0
  end.

(** ** The Exit Router as the spec words it *)

(** Section 4.4 of the spec: [route(exitMode, virtualStack, hostDialer)]
    gives the pair (dial through, listen on); [remote] dials through the
    virtual stack and listens on the host, [local] is the opposite, and no
    other mode is accepted. *)
Definition spec_route (exitMode : string) (tnet : Net)
  : option (Stack * Stack) :=
  if String.eqb exitMode "remote" then Some (VirtualStack tnet, HostStack)
  else if String.eqb exitMode "local" then Some (HostStack, VirtualStack tnet)
  else None.

(** What the code does for one exit mode: the dialer it hands to the
    proxy, the one listener it asks for (on stack [on], at [a]), and the
    listener it returns. *)
Definition routes (h : Host) (w : World) (tnet : Net) (a : TCPAddr)
           (d : Dialer) (on : Stack) : Prop :=
  proxyDialer tnet w = (Returned (Some d), w)
  /\ listens (trace (snd (proxyListener h tnet w)))
     = (listens (trace w) ++ [(on, a)])%list
  /\ (forall l w', proxyListener h tnet w = (Returned (Ok l), w') ->
       l = mkListener on a)
  /\ (hListenTCP h on a = None -> logger w <> None ->
      fst (proxyListener h tnet w) = Returned (Ok (mkListener on a))).

(** ** The Endpoint Resolver *)

Module Resolver.

(** A resolved peer address: a socket address. *)
Record AddrPort : Type := mkAddrPort { ap_ip : Addr; ap_port : Z }.

Definition Addr_eqb (a b : Addr) : bool :=
  match a, b with
  | Addr4 a1 a2 a3 a4, Addr4 b1 b2 b3 b4 =>
      (a1 =? b1) && (a2 =? b2) && (a3 =? b3) && (a4 =? b4)
  | Addr6 s1 z1, Addr6 s2 z2 =>
      (if list_eq_dec Z.eq_dec s1 s2 then true else false) && String.eqb z1 z2
  | _, _ => false
  end.

Definition AddrPort_eqb (a b : AddrPort) : bool :=
  Addr_eqb (ap_ip a) (ap_ip b) && (ap_port a =? ap_port b).

(** The part of the tunnel session the resolver touches: the peer address
    in use, and a count of the resolutions performed for it. *)
Record Session : Type := mkSession {
  peerAddr : AddrPort;
  resolutions : nat
}.

(** What one resolution of the peer host name answers. *)
Inductive Resolution : Type :=
| Resolved (a : AddrPort)
| ResolveFailed (e : error).

(** Modelled from the spec: the Endpoint Resolver's loop is in a file of
    the repository other than [main.go] (which only declares the
    [resolve-interval] option, "set 0 to disable").  Section 4.3: with
    interval 0 the resolver performs no periodic work; otherwise each
    period it resolves the peer, on a success that differs from the
    session's current peer address it replaces that address, and on a
    failure it keeps the known-good address and goes on. *)
Definition onTrigger (interval : Z) (s : Session) (r : Resolution) : Session :=
  if interval =? 0 then s
  else
    match r with
    | Resolved a =>
        if AddrPort_eqb a (peerAddr s)
        then mkSession (peerAddr s) (S (resolutions s))
        else mkSession a (S (resolutions s))
    | ResolveFailed _ => mkSession (peerAddr s) (S (resolutions s))
    end.

(** The session after the would-be triggers [rs] fired in turn. *)
Definition run (interval : Z) (s : Session) (rs : list Resolution) : Session :=
  fold_left (onTrigger interval) rs s.

End Resolver.

(** ** The usage text (lines 52-60)

    [main] builds the parser's usage text from the embedded README: the
    title line is trimmed off, every line the scanner delivers is appended
    behind two spaces and followed by a newline, and one final newline is
    trimmed.  Go strings are byte strings, as [string] is here. *)

Module Usage.

Definition LF : ascii := "010"%char.
Definition CR : ascii := "013"%char.

(** The one-byte strings "\n" and "\r". *)
Definition nl : string := String LF EmptyString.
Definition cr : string := String CR EmptyString.

(** [s[len(prefix):]] when [strings.HasPrefix(s, prefix)]. *)
Fixpoint stripPrefix (prefix s : string) : option string :=
  match prefix with
  | EmptyString => Some s
  | String p prefix' =>
      match s with
      | EmptyString => None
      | String c s' => if Ascii.eqb p c then stripPrefix prefix' s' else None
      end
  end.

(** [strings.TrimPrefix] *)
Definition TrimPrefix (s prefix : string) : string :=
  match stripPrefix prefix s with
  | Some rest => rest
  | None => s
  end.

(** [s[:len(s)-len(suffix)]] when [strings.HasSuffix(s, suffix)]. *)
Fixpoint stripSuffix (suffix s : string) : option string :=
  if String.eqb s suffix then Some EmptyString
  else
    match s with
    | EmptyString => None
    | String c s' => option_map (String c) (stripSuffix suffix s')
    end.

(** [strings.TrimSuffix] *)
Definition TrimSuffix (s suffix : string) : string :=
  match stripSuffix suffix s with
  | Some front => front
  | None => s
  end.

(** [bufio.MaxScanTokenSize]: the scanner's buffer grows to 64 KiB. *)
Definition MaxScanTokenSize : Z := 64 * 1024.

(** A line is delivered when it fits the buffer together with its newline
    (or, for an unterminated last line, leaves one byte free so that the
    end of input is seen): its bytes before the newline number less than
    [MaxScanTokenSize].  Otherwise [Scan] reports [ErrTooLong] and the
    loop of line 57 ends. *)
Definition fits (line : string) : bool :=
  Z.of_nat (String.length line) <? MaxScanTokenSize.

(** [dropCR] of [bufio.ScanLines]: one trailing "\r" is removed. *)
Fixpoint dropCR (line : string) : string :=
  match line with
  | EmptyString => EmptyString
  | String c EmptyString => if Ascii.eqb c CR then EmptyString else line
  | String c rest => String c (dropCR rest)
  end.

Definition deliver (line : string) (more : list string) : list string :=
  if fits line then dropCR line :: more else [].

(** The texts [scanner.Text()] takes over the successful [scanner.Scan()]
    calls of line 57, for a [bufio.Scanner] with the default split function
    [ScanLines] over [data]; [cur] holds the bytes of the line read so
    far.  Empty input at the end of the data gives no token. *)
Fixpoint scanLines (data cur : string) : list string :=
  match data with
  | EmptyString =>
      match cur with
      | EmptyString => []
      | String _ _ => deliver cur []
      end
  | String c rest =>
      if Ascii.eqb c LF then deliver cur (scanLines rest EmptyString)
      else scanLines rest (cur ++ String c EmptyString)
  end.

(** Line 53: the raw string literal assigned to [parser.Usage]. *)
Definition header : string := "[OPTIONS]" ++ nl ++ nl ++ "Description:".

(** The first line of the README, trimmed at line 56. *)
Definition title : string := "# wghttp" ++ nl.

(** Line 58: [parser.Usage += "  " + scanner.Text() + "\n"]. *)
Definition addLine (usage line : string) : string :=
  usage ++ "  " ++ line ++ nl.

(** Lines 53-60: the value of [parser.Usage] when [Parse] is called. *)
Definition mainUsage (readme : string) : string :=
  TrimSuffix
    (fold_left addLine (scanLines (TrimPrefix readme title) EmptyString)
               header)
    nl.

(** No byte of [s] is a newline. *)
Fixpoint noLF (s : string) : bool :=
  match s with
  | EmptyString => true
  | String c rest => negb (Ascii.eqb c LF) && noLF rest
  end.

(** The last byte of [s] is [c]. *)
Fixpoint lastIs (c : ascii) (s : string) : bool :=
  match s with
  | EmptyString => false
  | String x EmptyString => Ascii.eqb x c
  | String _ rest => lastIs c rest
  end.

(** A line of a README file as text and line ending: [true] for "\r\n",
    [false] for "\n". *)
Definition written (l : string * bool) : string :=
  fst l ++ (if snd l then cr else EmptyString) ++ nl.

(** The scanner gives the line back as it is: it holds no newline, it
    fits the buffer, and with a bare "\n" ending it does not itself end in
    "\r". *)
Definition scannable (l : string * bool) : bool :=
  noLF (fst l)
  && fits (fst l ++ (if snd l then cr else EmptyString))
  && (snd l || negb (lastIs CR (fst l))).

(** The lines of [ls], each behind two spaces and followed by a newline. *)
Fixpoint indented (ls : list string) : string :=
  match ls with
  | [] => EmptyString
  | l :: rest => "  " ++ l ++ nl ++ indented rest
  end.

Fixpoint file (ls : list (string * bool)) : string :=
  match ls with
  | [] => EmptyString
  | l :: rest => written l ++ file rest
  end.

End Usage.

(** A line of [n] bytes [c], to try the scanner on long lines. *)
Fixpoint replicate (n : nat) (c : ascii) : string :=
  match n with
  | O => EmptyString
  | S n' => String c (replicate n' c)
  end.

(** ** Environment names of the options *)

(** The long name in upper case with every dash an underscore. *)
Definition envChar (c : ascii) : ascii :=
  let n := nat_of_ascii c in
  if Ascii.eqb c "-"%char then "_"%char
  else if ((97 <=? n) && (n <=? 122))%nat then ascii_of_nat (n - 32)
  else c.

Fixpoint envName (long : string) : string :=
  match long with
  | EmptyString => EmptyString
  | String c rest => String (envChar c) (envName rest)
  end.

(** ** What [proxyListener] and [main] are observed to do *)

(** The stack the switch of lines 116-127 listens on. *)
Definition listenOn (mode : string) (tnet : Net) : option Stack :=
  if String.eqb mode "local" then Some (VirtualStack tnet)
  else if String.eqb mode "remote" then Some HostStack
  else None.

(** The text put before a listen error, by stack (lines 120 and 125). *)
Definition listenErrPrefix (on : Stack) : string :=
  match on with
  | VirtualStack _ => "create listener on netstack: "
  | HostStack => "create listener on local net: "
  end.

Definition isServe (e : Event) : bool :=
  match e with
  | EvServe _ _ => true
  | _ => false
  end.

Definition isVerboseLog (e : Event) : bool :=
  match e with
  | EvLog LogLevelVerbose _ _ => true
  | _ => false
  end.

(** The calls of a [setupNet] that reaches [Up], in order. *)
Definition setupCalls (w : World) (ips : list Addr) : list Event :=
  let dev := sessionDevice w ips in
  [ EvCreateNetTUN ips [] (MTU (opts w));
    EvNewConnBind (ClientID (opts w));
    EvNewDevice (dev_tun dev) (dev_bind dev) (logger w);
    EvIpcSet dev;
    EvUp dev ].

(** What [main] logs at verbose level: the options once parsed, and the
    address once listening. *)
Definition optionsLog (o : options) : list Event :=
  if Verbose o
  then [EvLog LogLevelVerbose "Options: %+v" (ArgOptions o)]
  else [].

Definition listeningLog (lg : Logger) (a : TCPAddr) : list Event :=
  match log_level lg with
  | LogLevelVerbose => [EvLog LogLevelVerbose "Listening on %s" (ArgAddr a)]
  | _ => []
  end.

(** Every stage of [setupNet] goes through in [w], for the addresses
    [ips]. *)
Definition SetupOk (h : Host) (w : World) (ips : list Addr) : Prop :=
  ClientIPs (opts w) <> []
  /\ parseClientIPs h (ClientIPs (opts w)) [] = Ok ips
  /\ hCreateNetTUN h ips [] (MTU (opts w)) = None
  /\ hIpcSet h (sessionDevice w ips) = None
  /\ hUp h (sessionDevice w ips) = None.

(** The runs of [main] after a successful [Parse] that stored [o]: the
    calls and log lines added to the trace, and how the run ends. *)
Inductive MainRun (h : Host) (w : World) (o : options)
  : list Event -> outcome unit -> Prop :=
| MR_setup_failed (e : error) (ips : list Addr) (k : nat) (w1 : World) :
    let w0 := parsedWorld w o in
    setupNet h w0 = (Returned (Err e), w1) ->
    w1 = addTrace w0 (firstn k (setupCalls w0 ips)) ->
    (forall dev, In (EvUp dev) (firstn k (setupCalls w0 ips)) ->
                 hUp h dev <> None) ->
    MainRun h w o
      (optionsLog o ++ firstn k (setupCalls w0 ips)
       ++ [EvLog LogLevelError "Setup netstack: %v" (ArgError e)])
      (Exited 1)
| MR_unresolved (ips : list Addr) (e : error) :
    let w0 := parsedWorld w o in
    SetupOk h w0 ips ->
    hResolveTCPAddr h (Listen o) = Err e ->
    MainRun h w o
      (optionsLog o ++ setupCalls w0 ips
       ++ [EvResolveTCPAddr (Listen o);
           EvLog LogLevelError "Create net listener: %v"
                 (ArgError (Errorf_w "resolve listen addr: " e))])
      (Exited 1)
| MR_bad_mode (ips : list Addr) (a : TCPAddr) :
    let w0 := parsedWorld w o in
    SetupOk h w0 ips ->
    hResolveTCPAddr h (Listen o) = Ok a ->
    listenOn (ExitMode o) (sessionNet w0 ips) = None ->
    MainRun h w o
      (optionsLog o ++ setupCalls w0 ips ++ [EvResolveTCPAddr (Listen o)])
      Panicked
| MR_refused (ips : list Addr) (a : TCPAddr) (on : Stack) (e : error) :
    let w0 := parsedWorld w o in
    SetupOk h w0 ips ->
    hResolveTCPAddr h (Listen o) = Ok a ->
    listenOn (ExitMode o) (sessionNet w0 ips) = Some on ->
    hListenTCP h on a = Some e ->
    MainRun h w o
      (optionsLog o ++ setupCalls w0 ips
       ++ [EvResolveTCPAddr (Listen o); EvListenTCP on a;
           EvLog LogLevelError "Create net listener: %v"
                 (ArgError (Errorf_w (listenErrPrefix on) e))])
      (Exited 1)
| MR_served (ips : list Addr) (a : TCPAddr) (on : Stack) (lg : Logger)
            (d : option Dialer) :
    let w0 := parsedWorld w o in
    let p := mkProxy d (DNS o) (stats (sessionDevice w0 ips)) in
    let l := mkListener on a in
    SetupOk h w0 ips ->
    hResolveTCPAddr h (Listen o) = Ok a ->
    listenOn (ExitMode o) (sessionNet w0 ips) = Some on ->
    hListenTCP h on a = None ->
    logger w0 = Some lg ->
    fst (proxyDialer (sessionNet w0 ips) w0) = Returned d ->
    MainRun h w o
      (optionsLog o ++ setupCalls w0 ips
       ++ [EvResolveTCPAddr (Listen o); EvListenTCP on a]
       ++ listeningLog lg a ++ [EvServe p l])
      (if hServeReturns h p l then Exited 1 else Blocked).

(** * Properties *)

(** The end-to-end scenarios of the spec run as stated. *)
Example sample_parse_ok :
  Sample.ParseAddr "10.0.0.2" = Ok (Addr4 10 0 0 2).
Proof. reflexivity. Qed.

Example sample_parse_bad :
  Sample.ParseAddr "10.0.0.256"
  = Err (ErrNew "ParseAddr: IPv4 field has value >255")
  /\ Sample.ParseAddr "10.0.0" = Err (ErrNew "ParseAddr: not a dotted quad")
  /\ Sample.ParseAddr "fe80::1"
     = Err (ErrNew "ParseAddr: unexpected character").
Proof. repeat split; reflexivity. Qed.

Example sample_main_remote :
  main (Sample.host (inr (Sample.config "remote"))) initWorld
  = (Exited 1,
     let n := mkNet [Addr4 10 0 0 2] [] 1280 in
     let lg := Some (NewLogger LogLevelError) in
     let dev := NewDevice (TunOf n) (newConnBind EmptyString) lg in
     let l := mkListener HostStack (Sample.loopback 8080) in
     mkWorld (Sample.config "remote") lg
       [ EvCreateNetTUN [Addr4 10 0 0 2] [] 1280;
         EvNewConnBind EmptyString;
         EvNewDevice (TunOf n) (newConnBind EmptyString) lg;
         EvIpcSet dev; EvUp dev;
         EvResolveTCPAddr "127.0.0.1:8080";
         EvListenTCP HostStack (Sample.loopback 8080);
         EvServe (mkProxy (Some (NetDialContext n)) EmptyString (stats dev))
                 l ]).
Proof. reflexivity. Qed.

Example sample_main_local :
  main (Sample.host (inr (Sample.config "local"))) initWorld
  = (Exited 1,
     let n := mkNet [Addr4 10 0 0 2] [] 1280 in
     let lg := Some (NewLogger LogLevelError) in
     let dev := NewDevice (TunOf n) (newConnBind EmptyString) lg in
     let l := mkListener (VirtualStack n) (Sample.loopback 8080) in
     mkWorld (Sample.config "local") lg
       [ EvCreateNetTUN [Addr4 10 0 0 2] [] 1280;
         EvNewConnBind EmptyString;
         EvNewDevice (TunOf n) (newConnBind EmptyString) lg;
         EvIpcSet dev; EvUp dev;
         EvResolveTCPAddr "127.0.0.1:8080";
         EvListenTCP (VirtualStack n) (Sample.loopback 8080);
         EvServe (mkProxy (Some HostDialContext) EmptyString (stats dev)) l ]).
Proof. reflexivity. Qed.

(** ** Errors, traces and strings *)

(** [errors.Unwrap] of a [%w] error gives back the wrapped error, and its
    text starts with the prefix. *)
Lemma Errorf_w_wraps (prefix : string) (err : error) :
  Unwrap (Errorf_w prefix err) = Some err
  /\ String.prefix prefix (errMsg (Errorf_w prefix err)) = true.
Proof.
  split; [reflexivity|]. cbn.
  induction prefix as [|c p IH]; cbn.
  - destruct (errMsg err); reflexivity.
  - destruct (ascii_dec c c) as [_|Hne]; [exact IH | contradiction].
Qed.

Lemma listens_app (t u : list Event) :
  listens (t ++ u) = (listens t ++ listens u)%list.
Proof.
  induction t as [|e t IH]; simpl; [reflexivity|].
  destruct e; simpl; rewrite IH; reflexivity.
Qed.

(** ** [proxyDialer] and [proxyListener] *)

(** C10: for every exit mode other than "local" and "remote" [proxyDialer]
    returns the nil dial function; the dialer it returns is non-nil if and
    only if the exit mode is one of those two values. *)
Theorem proxyDialer_nil_iff_undocumented (w : World) (tnet : Net) :
  (ExitMode (opts w) <> "local" /\ ExitMode (opts w) <> "remote" ->
   proxyDialer tnet w = (Returned None, w))
  /\ ((exists d, proxyDialer tnet w = (Returned (Some d), w))
      <-> ExitMode (opts w) = "local" \/ ExitMode (opts w) = "remote").
Proof.
  unfold proxyDialer, bind, getOpts, ret.
  destruct (String.eqb (ExitMode (opts w)) "local") eqn:El;
    [apply String.eqb_eq in El | apply String.eqb_neq in El].
  - split.
    + intros [Hl _]. contradiction.
    + split; [intros _; left; exact El | intros _; eexists; reflexivity].
  - destruct (String.eqb (ExitMode (opts w)) "remote") eqn:Er;
      [apply String.eqb_eq in Er | apply String.eqb_neq in Er].
    + split.
      * intros [_ Hr]. contradiction.
      * split; [intros _; right; exact Er | intros _; eexists; reflexivity].
    + split.
      * intros _. reflexivity.
      * split.
        -- intros [d Hd]. discriminate Hd.
        -- intros [H | H]; contradiction.
Qed.

Lemma proxyDialer_nil_witness :
  proxyDialer (mkNet [] [] 1280) (Sample.world (Sample.config "direct"))
  = (Returned None, Sample.world (Sample.config "direct")).
Proof.
  apply (proxyDialer_nil_iff_undocumented
           (Sample.world (Sample.config "direct")) (mkNet [] [] 1280)).
  split; discriminate.
Defined.

Ltac unfold_go :=
  unfold ResolveTCPAddr, ListenTCP, Verbosef, Errorf_log, Serve,
    CreateNetTUN, callNewConnBind, callNewDevice, ipcSet, Up, Parse,
    bind, getOpts, setOpts, getLogger, setLogger, emit, ret, osExit,
    panic, block in *.

Ltac solve_listens :=
  rewrite ?listens_app; cbn; rewrite ?app_nil_r, <- ?app_assoc; cbn;
  reflexivity.

Ltac solve_routes :=
  repeat split;
  first [ discriminate
        | solve_listens
        | intros ? ? H; inversion H; reflexivity
        | intros _ H; contradiction
        | intros; reflexivity ].

Lemma routes_remote (h : Host) (w : World) (tnet : Net) (a : TCPAddr) :
  hResolveTCPAddr h (Listen (opts w)) = Ok a ->
  ExitMode (opts w) = "remote" ->
  routes h w tnet a (NetDialContext tnet) HostStack.
Proof.
  intros Ha Hm. unfold routes, proxyDialer, proxyListener. unfold_go.
  cbn. rewrite Ha, Hm. cbn.
  destruct (hListenTCP h HostStack a) as [e|] eqn:Hl; cbn.
  - solve_routes.
  - destruct (logger w) as [[lvl]|] eqn:Hlg; cbn.
    + destruct lvl; cbn; solve_routes.
    + solve_routes.
Qed.

Lemma routes_local (h : Host) (w : World) (tnet : Net) (a : TCPAddr) :
  hResolveTCPAddr h (Listen (opts w)) = Ok a ->
  ExitMode (opts w) = "local" ->
  routes h w tnet a HostDialContext (VirtualStack tnet).
Proof.
  intros Ha Hm. unfold routes, proxyDialer, proxyListener. unfold_go.
  cbn. rewrite Ha, Hm. cbn.
  destruct (hListenTCP h (VirtualStack tnet) a) as [e|] eqn:Hl; cbn.
  - solve_routes.
  - destruct (logger w) as [[lvl]|] eqn:Hlg; cbn.
    + destruct lvl; cbn; solve_routes.
    + solve_routes.
Qed.

Lemma spec_route_cases (mode : string) (tnet : Net) (dial listen : Stack) :
  spec_route mode tnet = Some (dial, listen) ->
  (mode = "remote" /\ dial = VirtualStack tnet /\ listen = HostStack)
  \/ (mode = "local" /\ dial = HostStack /\ listen = VirtualStack tnet).
Proof.
  unfold spec_route.
  destruct (String.eqb mode "remote") eqn:Er.
  - intro H. inversion H. apply String.eqb_eq in Er. left.
    repeat split; assumption.
  - destruct (String.eqb mode "local") eqn:El; [|discriminate].
    intro H. inversion H. apply String.eqb_eq in El. right.
    repeat split; assumption.
Qed.

(** C1: for every listen address that resolves, exit mode "remote" makes
    the proxy dial through the virtual stack and listen on the host stack,
    exit mode "local" makes it dial through the host stack and listen
    inside the virtual stack; in both the pair is the complementary one
    the Exit Router of the spec assigns to the mode. *)
Theorem exit_mode_selects_complementary_stacks
        (h : Host) (w : World) (tnet : Net) (a : TCPAddr) :
  hResolveTCPAddr h (Listen (opts w)) = Ok a ->
  (ExitMode (opts w) = "remote" ->
   routes h w tnet a (NetDialContext tnet) HostStack)
  /\ (ExitMode (opts w) = "local" ->
      routes h w tnet a HostDialContext (VirtualStack tnet))
  /\ (forall dial listen,
        spec_route (ExitMode (opts w)) tnet = Some (dial, listen) ->
        dial <> listen
        /\ exists d, dialer_stack d = dial /\ routes h w tnet a d listen).
Proof.
  intro Ha. split; [|split].
  - apply routes_remote. exact Ha.
  - apply routes_local. exact Ha.
  - intros dial listen Hs.
    destruct (spec_route_cases _ _ _ _ Hs) as [[Hm [Hd Hl]] | [Hm [Hd Hl]]];
      subst dial listen.
    + split; [discriminate|].
      exists (NetDialContext tnet). split; [reflexivity|].
      apply routes_remote; assumption.
    + split; [discriminate|].
      exists HostDialContext. split; [reflexivity|].
      apply routes_local; assumption.
Qed.

Lemma exit_mode_selects_complementary_stacks_witness :
  let n := mkNet [Addr4 10 0 0 2] [] 1280 in
  let a := Sample.loopback 8080 in
  routes (Sample.host (inr (Sample.config "remote")))
         (Sample.world (Sample.config "remote")) n a
         (NetDialContext n) HostStack
  /\ routes (Sample.host (inr (Sample.config "local")))
            (Sample.world (Sample.config "local")) n a
            HostDialContext (VirtualStack n).
Proof.
  intros n a. split.
  - apply (exit_mode_selects_complementary_stacks
             (Sample.host (inr (Sample.config "remote")))
             (Sample.world (Sample.config "remote")) n a);
      reflexivity.
  - apply (exit_mode_selects_complementary_stacks
             (Sample.host (inr (Sample.config "local")))
             (Sample.world (Sample.config "local")) n a);
      reflexivity.
Defined.

(** ** [setupNet] *)

(** Line 133: the guard on an empty [opts.ClientIPs]. *)
Lemma setupNet_empty (h : Host) (w : World) :
  ClientIPs (opts w) = [] ->
  setupNet h w = (Returned (Err (Errorf "client IP is required")), w).
Proof.
  intro H. unfold setupNet. unfold_go. rewrite H. reflexivity.
Qed.

(** C2: with an empty client-address list [setupNet] returns the error
    "client IP is required" at once: the world is as it was, so no virtual
    stack and no tunnel session has been made. *)
Theorem setupNet_requires_client_ip (h : Host) (w : World) :
  ClientIPs (opts w) = [] ->
  setupNet h w = (Returned (Err (Errorf "client IP is required")), w)
  /\ filter buildsTunnel (trace (snd (setupNet h w)))
     = filter buildsTunnel (trace w).
Proof.
  intro H. rewrite (setupNet_empty h w H). split; reflexivity.
Qed.

Lemma setupNet_requires_client_ip_witness :
  let w := Sample.world (Sample.withClientIPs [] (Sample.config "remote")) in
  setupNet (Sample.host (inr (opts w))) w
  = (Returned (Err (ErrNew "client IP is required")), w).
Proof.
  intro w.
  apply (setupNet_requires_client_ip (Sample.host (inr (opts w))) w).
  reflexivity.
Defined.

(** The loop stops at the first entry that does not parse, whatever was
    appended before. *)
Lemma parseClientIPs_malformed (h : Host) (ss : list string) :
  (exists s e, In s ss /\ hParseAddr h s = Err e) ->
  forall acc, exists s e,
    In s ss /\ hParseAddr h s = Err e
    /\ parseClientIPs h ss acc = Err (Errorf_w "parse client IP: " e).
Proof.
  induction ss as [|s0 ss IH]; intros [s [e [Hin Hbad]]] acc.
  - destruct Hin.
  - cbn [parseClientIPs].
    destruct (hParseAddr h s0) as [ip|e0] eqn:H0.
    + destruct Hin as [-> | Hin]; [congruence|].
      destruct (IH (ex_intro _ s (ex_intro _ e (conj Hin Hbad)))
                   (acc ++ [ip])%list)
        as [s' [e' [Hin' [Hbad' Hrun]]]].
      exists s', e'. repeat split; [right; exact Hin' | exact Hbad' | exact Hrun].
    + exists s0, e0. repeat split; [left; reflexivity | exact H0].
Qed.

(** An error of the loop comes from the first entry that does not parse. *)
Lemma parseClientIPs_error (h : Host) (ss : list string) :
  forall acc e, parseClientIPs h ss acc = Err e ->
  exists pre s post e0,
    ss = (pre ++ s :: post)%list
    /\ Forall (fun s' => exists ip, hParseAddr h s' = Ok ip) pre
    /\ hParseAddr h s = Err e0
    /\ e = Errorf_w "parse client IP: " e0.
Proof.
  induction ss as [|s0 ss IH]; intros acc e H; cbn in H.
  - discriminate.
  - destruct (hParseAddr h s0) as [ip|e0] eqn:H0.
    + destruct (IH _ _ H) as [pre [s [post [e1 [Hss [Hpre [Hbad He]]]]]]].
      exists (s0 :: pre), s, post, e1. repeat split; try assumption.
      * rewrite Hss. reflexivity.
      * constructor; [exists ip; exact H0 | exact Hpre].
    + injection H as H. exists [], s0, ss, e0.
      repeat split; [constructor | exact H0 | symmetry; exact H].
Qed.

Lemma parseClientIPs_first_bad (h : Host) (pre : list string) :
  forall s post e0 acc,
    Forall (fun s' => exists ip, hParseAddr h s' = Ok ip) pre ->
    hParseAddr h s = Err e0 ->
    parseClientIPs h (pre ++ s :: post) acc
    = Err (Errorf_w "parse client IP: " e0).
Proof.
  induction pre as [|p pre IH]; intros s post e0 acc Hpre Hbad; cbn.
  - rewrite Hbad. reflexivity.
  - inversion Hpre as [|? ? [ip Hip] Hrest]; subst.
    rewrite Hip. apply IH; assumption.
Qed.

(** When every entry parses the loop returns the addresses in order. *)
Lemma parseClientIPs_ok (h : Host) (ss : list string) :
  forall acc ips, parseClientIPs h ss acc = Ok ips ->
  exists parsed, ips = (acc ++ parsed)%list
                 /\ Forall2 (fun s ip => hParseAddr h s = Ok ip) ss parsed.
Proof.
  induction ss as [|s0 ss IH]; intros acc ips H; cbn in H.
  - inversion H. exists []. split; [symmetry; apply app_nil_r | constructor].
  - destruct (hParseAddr h s0) as [ip|e0] eqn:H0; [|discriminate].
    destruct (IH _ _ H) as [parsed [Hips Hall]].
    exists (ip :: parsed). split.
    + rewrite Hips, <- app_assoc. reflexivity.
    + constructor; assumption.
Qed.

(** C3: when the client-address list holds a well-formed entry and a
    malformed one, [setupNet] returns the parse error of a malformed entry
    and leaves the world as it was: no virtual stack is made from the
    entries that did parse. *)
Theorem setupNet_malformed_client_ip_is_atomic (h : Host) (w : World) :
  (exists s ip, In s (ClientIPs (opts w)) /\ hParseAddr h s = Ok ip) ->
  (exists s e, In s (ClientIPs (opts w)) /\ hParseAddr h s = Err e) ->
  (exists s e, In s (ClientIPs (opts w)) /\ hParseAddr h s = Err e
               /\ setupNet h w
                  = (Returned (Err (Errorf_w "parse client IP: " e)), w))
  /\ filter buildsTunnel (trace (snd (setupNet h w)))
     = filter buildsTunnel (trace w).
Proof.
  intros _ Hbad.
  destruct (parseClientIPs_malformed h _ Hbad []) as [s [e [Hin [He Hrun]]]].
  assert (Hs : setupNet h w
               = (Returned (Err (Errorf_w "parse client IP: " e)), w)).
  { unfold setupNet. unfold_go.
    destruct (ClientIPs (opts w)) as [|s0 ss] eqn:Hl; [destruct Hin|].
    cbn [List.length Nat.eqb]. rewrite Hrun. reflexivity. }
  split.
  - exists s, e. repeat split; assumption.
  - rewrite Hs. reflexivity.
Qed.

Lemma setupNet_malformed_client_ip_is_atomic_witness :
  let w := Sample.world (Sample.withClientIPs ["10.0.0.2"; "10.0.0.x"; "10.0.0.3"]
                                              (Sample.config "remote")) in
  filter buildsTunnel (trace (snd (setupNet (Sample.host (inr (opts w))) w)))
  = [].
Proof.
  intro w.
  apply (setupNet_malformed_client_ip_is_atomic (Sample.host (inr (opts w))) w).
  - exists "10.0.0.2", (Addr4 10 0 0 2). split; [left; reflexivity | reflexivity].
  - exists "10.0.0.x", (ErrNew "ParseAddr: unexpected character").
    split; [right; left; reflexivity | reflexivity].
Defined.

(** The calls [setupNet] makes once the client addresses have parsed. *)
Lemma setupNet_run (h : Host) (w : World) (ips : list Addr) :
  ClientIPs (opts w) <> [] ->
  parseClientIPs h (ClientIPs (opts w)) [] = Ok ips ->
  let dev := sessionDevice w ips in
  let made := [ EvCreateNetTUN ips [] (MTU (opts w));
                EvNewConnBind (ClientID (opts w));
                EvNewDevice (dev_tun dev) (dev_bind dev) (logger w) ] in
  setupNet h w =
  match hCreateNetTUN h ips [] (MTU (opts w)) with
  | Some e =>
      (Returned (Err (Errorf_w "create netstack tun: " e)),
       addTrace w [EvCreateNetTUN ips [] (MTU (opts w))])
  | None =>
      match hIpcSet h dev with
      | Some e =>
          (Returned (Err (Errorf_w "config device: " e)),
           addTrace w (made ++ [EvIpcSet dev]))
      | None =>
          match hUp h dev with
          | Some e =>
              (Returned (Err (Errorf_w "bring up device: " e)),
               addTrace w (made ++ [EvIpcSet dev; EvUp dev]))
          | None =>
              (Returned (Ok (dev, sessionNet w ips)),
               addTrace w (made ++ [EvIpcSet dev; EvUp dev]))
          end
      end
  end.
Proof.
  intros Hne Hips dev made. subst dev made.
  unfold setupNet, sessionDevice, sessionNet, addTrace. unfold_go.
  destruct (ClientIPs (opts w)) as [|s0 ss] eqn:Hl; [contradiction|].
  cbn [List.length Nat.eqb]. rewrite Hips. cbn.
  destruct (hCreateNetTUN h ips [] (MTU (opts w))); cbn; [reflexivity|].
  destruct (hIpcSet h _); cbn.
  - rewrite <- !app_assoc. reflexivity.
  - destruct (hUp h _); cbn; rewrite <- !app_assoc; reflexivity.
Qed.

(** [setupNet] only adds to the trace, and nothing about the proxy;
    [opts] and [logger] stay. *)
Lemma setupNet_frame (h : Host) (w : World) :
  exists evs, snd (setupNet h w) = addTrace w evs
              /\ filter startsProxy evs = [].
Proof.
  destruct (ClientIPs (opts w)) as [|s0 ss] eqn:Hl.
  - exists []. rewrite (setupNet_empty h w Hl).
    unfold addTrace. cbn. rewrite app_nil_r. destruct w; split; reflexivity.
  - destruct (parseClientIPs h (ClientIPs (opts w)) []) as [ips|e] eqn:Hp.
    + assert (Hne : ClientIPs (opts w) <> []) by (rewrite Hl; discriminate).
      rewrite (setupNet_run h w ips Hne Hp). cbv zeta.
      destruct (hCreateNetTUN h ips [] (MTU (opts w)));
        [eexists; split; reflexivity|].
      destruct (hIpcSet h _); [eexists; split; reflexivity|].
      destruct (hUp h _); eexists; split; reflexivity.
    + exists []. unfold setupNet. unfold_go. rewrite Hl in *.
      cbn [List.length Nat.eqb]. rewrite Hp. unfold addTrace. cbn.
      rewrite app_nil_r. destruct w; split; reflexivity.
Qed.

(** C4: whenever [ipcSet] returns an error for the device [setupNet] made,
    [setupNet] returns that error wrapped as "config device: ..." and [Up]
    is called on no device. *)
Theorem ipcSet_error_aborts_setup
        (h : Host) (w w' : World) (r : outcome (result (Device * Net)))
        (evs : list Event) (dev : Device) (e : error) :
  setupNet h w = (r, w') ->
  trace w' = (trace w ++ evs)%list ->
  In (EvIpcSet dev) evs ->
  hIpcSet h dev = Some e ->
  r = Returned (Err (Errorf_w "config device: " e))
  /\ activations evs = []
  /\ forall d, ~ In (EvUp d) evs.
Proof.
  intros Hrun Htr Hin Hipc.
  destruct (ClientIPs (opts w)) as [|s0 ss] eqn:Hl.
  - pose proof (setupNet_empty h w Hl) as Hs.
    rewrite Hs in Hrun. inversion Hrun; subst w'.
    rewrite <- (app_nil_r (trace w)) in Htr at 1.
    apply app_inv_head in Htr. subst evs. destruct Hin.
  - assert (Hne : ClientIPs (opts w) <> []) by (rewrite Hl; discriminate).
    destruct (parseClientIPs h (ClientIPs (opts w)) []) as [ips|e0] eqn:Hp.
    + rewrite (setupNet_run h w ips Hne Hp) in Hrun. cbv zeta in Hrun.
      destruct (hCreateNetTUN h ips [] (MTU (opts w))).
      { inversion Hrun; subst r w'. cbn in Htr.
        apply app_inv_head in Htr. subst evs.
        destruct Hin as [Hin|[]]. discriminate Hin. }
      destruct (hIpcSet h (sessionDevice w ips)) as [e1|] eqn:H1.
      { inversion Hrun; subst r w'. cbn in Htr.
        apply app_inv_head in Htr. subst evs.
        cbn in Hin.
        destruct Hin as [Hin|[Hin|[Hin|[Hin|[]]]]]; try discriminate Hin.
        inversion Hin; subst dev. rewrite H1 in Hipc. inversion Hipc; subst e1.
        split; [reflexivity|]. split; [reflexivity|].
        intros d [H|[H|[H|[H|[]]]]]; discriminate H. }
      assert (Hdev : dev = sessionDevice w ips).
      { destruct (hUp h (sessionDevice w ips));
          inversion Hrun; subst r w'; cbn in Htr;
          apply app_inv_head in Htr; subst evs; cbn in Hin;
          destruct Hin as [Hin|[Hin|[Hin|[Hin|[Hin|[]]]]]];
          try discriminate Hin; inversion Hin; reflexivity. }
      subst dev. rewrite H1 in Hipc. discriminate Hipc.
    + exfalso. unfold setupNet in Hrun. unfold_go. rewrite Hl in *.
      cbn [List.length Nat.eqb] in Hrun. rewrite Hp in Hrun.
      inversion Hrun; subst w'.
      rewrite <- (app_nil_r (trace w)) in Htr at 1.
      apply app_inv_head in Htr. subst evs. destruct Hin.
Qed.

Lemma ipcSet_error_aborts_setup_witness :
  let o := Sample.withClientID "bad" (Sample.config "remote") in
  let w := Sample.world o in
  let dev := sessionDevice w [Addr4 10 0 0 2] in
  let evs := [ EvCreateNetTUN [Addr4 10 0 0 2] [] 1280;
               EvNewConnBind "bad";
               EvNewDevice (dev_tun dev) (dev_bind dev) (logger w);
               EvIpcSet dev ] in
  let e := ErrNew "IPC error -22: failed to set private_key" in
  fst (setupNet (Sample.host (inr o)) w)
  = Returned (Err (ErrWrap "config device: IPC error -22: failed to set private_key" e))
  /\ activations evs = []
  /\ forall d, ~ In (EvUp d) evs.
Proof.
  intros o w dev evs e.
  exact (ipcSet_error_aborts_setup (Sample.host (inr o)) w
           (snd (setupNet (Sample.host (inr o)) w))
           (fst (setupNet (Sample.host (inr o)) w))
           evs dev e eq_refl eq_refl
           (or_intror (or_intror (or_intror (or_introl eq_refl))))
           eq_refl).
Defined.

(** C9: once the client addresses have parsed, [setupNet] first makes the
    virtual stack from the parsed addresses and the configured MTU, then
    asks the Connection Binder for a binding for the configured instance
    identity, then makes the device over that stack and that binding; the
    device and stack it returns are these. *)
Theorem setupNet_builds_stack_then_session
        (h : Host) (w : World) (ips : list Addr) :
  ClientIPs (opts w) <> [] ->
  parseClientIPs h (ClientIPs (opts w)) [] = Ok ips ->
  hCreateNetTUN h ips [] (MTU (opts w)) = None ->
  let n := mkNet ips [] (MTU (opts w)) in
  let b := newConnBind (ClientID (opts w)) in
  Forall2 (fun s ip => hParseAddr h s = Ok ip) (ClientIPs (opts w)) ips
  /\ (exists rest,
        trace (snd (setupNet h w))
        = (trace w ++ EvCreateNetTUN ips [] (MTU (opts w))
                   :: EvNewConnBind (ClientID (opts w))
                   :: EvNewDevice (TunOf n) b (logger w)
                   :: rest)%list)
  /\ (forall dev tnet w',
        setupNet h w = (Returned (Ok (dev, tnet)), w') ->
        tnet = n /\ dev_tun dev = TunOf n /\ dev_bind dev = b).
Proof.
  intros Hne Hp Hc n b. subst n b. split.
  { destruct (parseClientIPs_ok h _ _ _ Hp) as [parsed [-> Hall]].
    exact Hall. }
  rewrite (setupNet_run h w ips Hne Hp). cbv zeta. rewrite Hc.
  destruct (hIpcSet h (sessionDevice w ips)).
  - split; [eexists; reflexivity | intros dev tnet w' H; discriminate H].
  - destruct (hUp h (sessionDevice w ips)).
    + split; [eexists; reflexivity | intros dev tnet w' H; discriminate H].
    + split; [eexists; reflexivity|].
      intros dev tnet w' H. inversion H. repeat split.
Qed.

Lemma setupNet_builds_stack_then_session_witness :
  let o := Sample.config "remote" in
  let n := mkNet [Addr4 10 0 0 2] [] 1280 in
  let b := newConnBind EmptyString in
  Forall2 (fun s ip => Sample.ParseAddr s = Ok ip)
          ["10.0.0.2"] [Addr4 10 0 0 2]
  /\ (exists rest,
        trace (snd (setupNet (Sample.host (inr o)) (Sample.world o)))
        = ([] ++ EvCreateNetTUN [Addr4 10 0 0 2] [] 1280
              :: EvNewConnBind EmptyString
              :: EvNewDevice (TunOf n) b (Some (NewLogger LogLevelError))
              :: rest)%list)
  /\ (forall dev tnet w',
        setupNet (Sample.host (inr o)) (Sample.world o)
        = (Returned (Ok (dev, tnet)), w') ->
        tnet = n /\ dev_tun dev = TunOf n /\ dev_bind dev = b).
Proof.
  intros o n b.
  apply (setupNet_builds_stack_then_session
           (Sample.host (inr o)) (Sample.world o) [Addr4 10 0 0 2]).
  - discriminate.
  - reflexivity.
  - reflexivity.
Defined.

(** ** Errors of [setupNet] name their stage *)

Lemma stageOf_parse (e0 : error) :
  stageOf (Errorf_w "parse client IP: " e0) = Some StageParseClientIP.
Proof. unfold stageOf, Errorf_w. cbn. destruct (errMsg e0); reflexivity. Qed.

Lemma stageOf_create (e0 : error) :
  stageOf (Errorf_w "create netstack tun: " e0) = Some StageCreateStack.
Proof. unfold stageOf, Errorf_w. cbn. destruct (errMsg e0); reflexivity. Qed.

Lemma stageOf_config (e0 : error) :
  stageOf (Errorf_w "config device: " e0) = Some StageConfigure.
Proof. unfold stageOf, Errorf_w. cbn. destruct (errMsg e0); reflexivity. Qed.

Lemma stageOf_up (e0 : error) :
  stageOf (Errorf_w "bring up device: " e0) = Some StageActivate.
Proof. unfold stageOf, Errorf_w. cbn. destruct (errMsg e0); reflexivity. Qed.

Lemma setupNet_error_stage (h : Host) (w w1 : World) (e : error) :
  setupNet h w = (Returned (Err e), w1) ->
  exists st, stage_cause h w st e.
Proof.
  intro Hrun.
  destruct (ClientIPs (opts w)) as [|s0 ss] eqn:Hl.
  - pose proof (setupNet_empty h w Hl) as Hs.
    rewrite Hs in Hrun. injection Hrun as He Hw. subst e w1.
    exists StageRequireClientIP. split; [exact Hl | reflexivity].
  - assert (Hne : ClientIPs (opts w) <> []) by (rewrite Hl; discriminate).
    destruct (parseClientIPs h (ClientIPs (opts w)) []) as [ips|e0] eqn:Hp.
    + rewrite (setupNet_run h w ips Hne Hp) in Hrun. cbv zeta in Hrun.
      destruct (hCreateNetTUN h ips [] (MTU (opts w))) as [ec|] eqn:Hc.
      { injection Hrun as He Hw. subst e w1. exists StageCreateStack.
        exists ips, ec. repeat split; assumption. }
      destruct (hIpcSet h (sessionDevice w ips)) as [ei|] eqn:Hi.
      { injection Hrun as He Hw. subst e w1. exists StageConfigure.
        exists ips, ei. repeat split; assumption. }
      destruct (hUp h (sessionDevice w ips)) as [eu|] eqn:Hu;
        [|discriminate Hrun].
      injection Hrun as He Hw. subst e w1. exists StageActivate.
      exists ips, eu. repeat split; assumption.
    + unfold setupNet in Hrun. unfold_go. rewrite Hl in Hrun.
      cbn [List.length Nat.eqb] in Hrun. rewrite <- Hl in Hrun.
      rewrite Hp in Hrun. injection Hrun as He Hw. subst e0 w1.
      destruct (parseClientIPs_error h _ _ _ Hp)
        as [pre [s [post [e1 [Hss [Hpre [Hbad He]]]]]]].
      exists StageParseClientIP, pre, s, post, e1.
      repeat split; assumption.
Qed.

Lemma stage_cause_setupNet (h : Host) (w : World) (st : Stage) (e : error) :
  stage_cause h w st e -> exists w1, setupNet h w = (Returned (Err e), w1).
Proof.
  destruct st; unfold stage_cause; cbv zeta.
  - intros [Hl ->]. exists w. apply setupNet_empty. exact Hl.
  - intros [pre [s [post [e0 [Hss [Hpre [Hbad ->]]]]]]]. exists w.
    unfold setupNet. unfold_go.
    destruct (ClientIPs (opts w)) as [|s0 ss] eqn:Hl;
      [destruct pre; discriminate Hss|].
    cbn [List.length Nat.eqb]. rewrite Hss.
    rewrite (parseClientIPs_first_bad h pre s post e0 [] Hpre Hbad).
    reflexivity.
  - intros [ips [e0 [Hne [Hp [Hc ->]]]]].
    rewrite (setupNet_run h w ips Hne Hp). cbv zeta. rewrite Hc.
    eexists; reflexivity.
  - intros [ips [e0 [Hne [Hp [Hc [Hi ->]]]]]].
    rewrite (setupNet_run h w ips Hne Hp). cbv zeta. rewrite Hc, Hi.
    eexists; reflexivity.
  - intros [ips [e0 [Hne [Hp [Hc [Hi [Hu ->]]]]]]].
    rewrite (setupNet_run h w ips Hne Hp). cbv zeta. rewrite Hc, Hi, Hu.
    eexists; reflexivity.
Qed.

Lemma stage_cause_stageOf (h : Host) (w : World) (st : Stage) (e : error) :
  stage_cause h w st e -> stageOf e = Some st.
Proof.
  destruct st; unfold stage_cause; cbv zeta.
  - intros [_ ->]. reflexivity.
  - intros [pre [s [post [e0 [_ [_ [_ ->]]]]]]]. apply stageOf_parse.
  - intros [ips [e0 [_ [_ [_ ->]]]]]. apply stageOf_create.
  - intros [ips [e0 [_ [_ [_ [_ ->]]]]]]. apply stageOf_config.
  - intros [ips [e0 [_ [_ [_ [_ [_ ->]]]]]]]. apply stageOf_up.
Qed.

(** ** [main] *)

Lemma main_parse_error (h : Host) (w : World) (err : Flags.ParseError) :
  hParse h = inl err -> main h w = (Exited (parseErrorCode err), w).
Proof. intro H. unfold main. unfold_go. rewrite H. reflexivity. Qed.

Lemma main_parsed (h : Host) (w : World) (o : options) :
  hParse h = inr o -> main h w = serveProxy h (parsedWorld w o).
Proof.
  intro H. unfold main, parsedWorld. unfold_go. rewrite H. cbn.
  destruct (Verbose o); reflexivity.
Qed.

Lemma parsedWorld_logger (w : World) (o : options) :
  exists lvl, logger (parsedWorld w o) = Some (NewLogger lvl)
              /\ lvl <> LogLevelSilent.
Proof.
  unfold parsedWorld. destruct (Verbose o); cbn; eexists; split;
    try reflexivity; discriminate.
Qed.

Lemma parsedWorld_opts (w : World) (o : options) :
  opts (parsedWorld w o) = o.
Proof. unfold parsedWorld. destruct (Verbose o); reflexivity. Qed.

Lemma Errorf_log_prints (w : World) (lvl : LogLevel) (f : string) (a : LogArg) :
  logger w = Some (NewLogger lvl) -> lvl <> LogLevelSilent ->
  Errorf_log f a w = (Returned tt, addTrace w [EvLog LogLevelError f a]).
Proof.
  intros Hl Hn. unfold Errorf_log, addTrace. unfold_go. cbn.
  destruct (logger w) as [lg|] eqn:E; [|discriminate Hl].
  injection Hl as ->. cbn.
  destruct lvl; [contradiction | |]; cbn; rewrite ?E; reflexivity.
Qed.

Lemma setupNet_returns (h : Host) (w : World) :
  exists r, fst (setupNet h w) = Returned r.
Proof.
  destruct (ClientIPs (opts w)) as [|s0 ss] eqn:Hl.
  - rewrite (setupNet_empty h w Hl). eexists; reflexivity.
  - destruct (parseClientIPs h (ClientIPs (opts w)) []) as [ips|e] eqn:Hp.
    + assert (Hne : ClientIPs (opts w) <> []) by (rewrite Hl; discriminate).
      rewrite (setupNet_run h w ips Hne Hp). cbv zeta.
      destruct (hCreateNetTUN h ips [] (MTU (opts w))); [eexists; reflexivity|].
      destruct (hIpcSet h _); [eexists; reflexivity|].
      destruct (hUp h _); eexists; reflexivity.
    + unfold setupNet. unfold_go. rewrite Hl in *.
      cbn [List.length Nat.eqb]. rewrite Hp. eexists; reflexivity.
Qed.

(** [proxyListener] returns or panics, and only adds to the trace. *)
Lemma proxyListener_frame (h : Host) (tnet : Net) (w : World) :
  exists evs, snd (proxyListener h tnet w) = addTrace w evs
  /\ ((exists r, fst (proxyListener h tnet w) = Returned r)
      \/ fst (proxyListener h tnet w) = Panicked).
Proof.
  unfold proxyListener, addTrace. unfold_go. cbn.
  destruct (hResolveTCPAddr h (Listen (opts w))) as [a|e]; cbn;
    [|eexists; split; [reflexivity | left; eexists; reflexivity]].
  destruct (String.eqb (ExitMode (opts w)) "local"); cbn.
  - destruct (hListenTCP h (VirtualStack tnet) a); cbn;
      [rewrite <- app_assoc; eexists; split;
       [reflexivity | left; eexists; reflexivity]|].
    destruct (logger w) as [[lvl]|]; cbn;
      [destruct lvl; cbn|]; rewrite <- ?app_assoc;
      eexists; (split; [reflexivity|]);
      first [left; eexists; reflexivity | right; reflexivity].
  - destruct (String.eqb (ExitMode (opts w)) "remote"); cbn.
    + destruct (hListenTCP h HostStack a); cbn;
        [rewrite <- app_assoc; eexists; split;
         [reflexivity | left; eexists; reflexivity]|].
      destruct (logger w) as [[lvl]|]; cbn;
        [destruct lvl; cbn|]; rewrite <- ?app_assoc;
        eexists; (split; [reflexivity|]);
        first [left; eexists; reflexivity | right; reflexivity].
    + eexists; split; [reflexivity | right; reflexivity].
Qed.

Lemma proxyDialer_pure (tnet : Net) (w : World) :
  exists d, proxyDialer tnet w = (Returned d, w).
Proof.
  unfold proxyDialer. unfold_go.
  destruct (String.eqb (ExitMode (opts w)) "local"); [eexists; reflexivity|].
  destruct (String.eqb (ExitMode (opts w)) "remote"); eexists; reflexivity.
Qed.

Lemma serveProxy_setup_error
      (h : Host) (w w1 : World) (lvl : LogLevel) (e : error) :
  logger w = Some (NewLogger lvl) -> lvl <> LogLevelSilent ->
  setupNet h w = (Returned (Err e), w1) ->
  serveProxy h w
  = (Exited 1, addTrace w1 [EvLog LogLevelError "Setup netstack: %v" (ArgError e)]).
Proof.
  intros Hl Hn Hs.
  destruct (setupNet_frame h w) as [evs [Hf _]]. rewrite Hs in Hf. cbn in Hf.
  assert (Hl1 : logger w1 = Some (NewLogger lvl)) by (subst w1; exact Hl).
  unfold serveProxy, bind at 1. rewrite Hs.
  unfold bind at 1. rewrite (Errorf_log_prints w1 lvl _ _ Hl1 Hn).
  reflexivity.
Qed.

Lemma serveProxy_listener_error
      (h : Host) (w w1 w2 : World) (lvl : LogLevel)
      (dev : Device) (tnet : Net) (e : error) :
  logger w = Some (NewLogger lvl) -> lvl <> LogLevelSilent ->
  setupNet h w = (Returned (Ok (dev, tnet)), w1) ->
  proxyListener h tnet w1 = (Returned (Err e), w2) ->
  serveProxy h w
  = (Exited 1,
     addTrace w2 [EvLog LogLevelError "Create net listener: %v" (ArgError e)]).
Proof.
  intros Hl Hn Hs Hp.
  destruct (setupNet_frame h w) as [evs [Hf _]]. rewrite Hs in Hf. cbn in Hf.
  destruct (proxyListener_frame h tnet w1) as [evs2 [Hf2 _]].
  rewrite Hp in Hf2. cbn in Hf2.
  assert (Hl2 : logger w2 = Some (NewLogger lvl)) by (subst w2 w1; exact Hl).
  unfold serveProxy, bind at 1. rewrite Hs.
  unfold bind at 1. rewrite Hp.
  unfold bind at 1. rewrite (Errorf_log_prints w2 lvl _ _ Hl2 Hn).
  reflexivity.
Qed.

Lemma serveProxy_served
      (h : Host) (w w1 w2 : World) (dev : Device) (tnet : Net)
      (l : Listener) (d : option Dialer) :
  setupNet h w = (Returned (Ok (dev, tnet)), w1) ->
  proxyListener h tnet w1 = (Returned (Ok l), w2) ->
  fst (proxyDialer tnet w2) = Returned d ->
  let p := mkProxy d (DNS (opts w2)) (stats dev) in
  serveProxy h w
  = (if hServeReturns h p l then Exited 1 else Blocked,
     addTrace w2 [EvServe p l]).
Proof.
  intros Hs Hp Hd p. subst p.
  destruct (proxyDialer_pure tnet w2) as [d' Hd']. rewrite Hd' in Hd.
  cbn in Hd. injection Hd as Hd. subst d'.
  unfold serveProxy, bind at 1. rewrite Hs.
  unfold bind at 1. rewrite Hp.
  unfold bind at 1. rewrite Hd'.
  unfold Serve, addTrace. unfold_go.
  destruct (hServeReturns h _ l); reflexivity.
Qed.

(** [serveProxy] never leaves with a code other than 1. *)
Lemma serveProxy_exit_code (h : Host) (w : World) (lvl : LogLevel) (c : Z) :
  logger w = Some (NewLogger lvl) -> lvl <> LogLevelSilent ->
  fst (serveProxy h w) = Exited c -> c = 1.
Proof.
  intros Hl Hn.
  destruct (setupNet_returns h w) as [r Hr].
  destruct (setupNet h w) as [r' w1] eqn:Hs. cbn in Hr. subst r'.
  destruct r as [[dev tnet]|e].
  - destruct (proxyListener_frame h tnet w1) as [evs [_ [[rl Hrl] | Hpanic]]].
    + destruct (proxyListener h tnet w1) as [rl' w2] eqn:Hp. cbn in Hrl. subst rl'.
      destruct rl as [l|e].
      * destruct (proxyDialer_pure tnet w2) as [d Hd].
        rewrite (serveProxy_served h w w1 w2 dev tnet l d Hs Hp
                   (f_equal fst Hd)).
        cbv zeta. destruct (hServeReturns h _ l); cbn; intro H;
          [injection H as H; symmetry; exact H | discriminate H].
      * rewrite (serveProxy_listener_error h w w1 w2 lvl dev tnet e Hl Hn Hs Hp).
        cbn. intro H. injection H as H. symmetry; exact H.
    + destruct (proxyListener h tnet w1) as [rl' w2] eqn:Hp. cbn in Hpanic.
      subst rl'. unfold serveProxy, bind at 1. rewrite Hs.
      unfold bind at 1. rewrite Hp. cbn. discriminate.
  - rewrite (serveProxy_setup_error h w w1 lvl e Hl Hn Hs).
    cbn. intro H. injection H as H. symmetry; exact H.
Qed.

(** C5: [setupNet] returns an error exactly when one of its stages fails;
    the error wraps the failing call's error under a text from which the
    stage is read back; and [main] answers every such error by logging it
    and leaving with exit code 1, without resolving the listen address,
    listening or serving. *)
Theorem setup_errors_name_stage_and_end_process
        (h : Host) (w : World) (o : options) :
  hParse h = inr o ->
  let w0 := parsedWorld w o in
  (forall e, (exists w1, setupNet h w0 = (Returned (Err e), w1))
             <-> (exists st, stage_cause h w0 st e))
  /\ (forall st e, stage_cause h w0 st e -> stageOf e = Some st)
  /\ (forall e w1,
        setupNet h w0 = (Returned (Err e), w1) ->
        main h w
        = (Exited 1,
           addTrace w1 [EvLog LogLevelError "Setup netstack: %v" (ArgError e)])
        /\ filter startsProxy (trace (snd (main h w)))
           = filter startsProxy (trace w)).
Proof.
  intros Hparse w0. split; [|split].
  - intro e. split.
    + intros [w1 Hs]. exact (setupNet_error_stage h w0 w1 e Hs).
    + intros [st Hc]. exact (stage_cause_setupNet h w0 st e Hc).
  - intros st e. apply stage_cause_stageOf.
  - intros e w1 Hs.
    destruct (parsedWorld_logger w o) as [lvl [Hl Hn]].
    assert (Hm : main h w
                 = (Exited 1,
                    addTrace w1 [EvLog LogLevelError "Setup netstack: %v"
                                       (ArgError e)])).
    { rewrite (main_parsed h w o Hparse).
      exact (serveProxy_setup_error h w0 w1 lvl e Hl Hn Hs). }
    split; [exact Hm|].
    rewrite Hm. cbn [snd addTrace trace].
    destruct (setupNet_frame h w0) as [evs [Hf Hq]].
    rewrite Hs in Hf. cbn [snd] in Hf. subst w1. cbn [addTrace trace].
    rewrite !filter_app, Hq. cbn [filter startsProxy app].
    rewrite !app_nil_r. subst w0. unfold parsedWorld.
    destruct (Verbose o); cbn [trace].
    + rewrite filter_app. cbn. apply app_nil_r.
    + reflexivity.
Qed.

Lemma setup_errors_name_stage_and_end_process_witness :
  let o := Sample.withClientID "bad" (Sample.config "remote") in
  let e := Errorf_w "config device: "
                    (ErrNew "IPC error -22: failed to set private_key") in
  stageOf e = Some StageConfigure
  /\ fst (main (Sample.host (inr o)) initWorld) = Exited 1.
Proof.
  intros o e.
  destruct (setup_errors_name_stage_and_end_process
              (Sample.host (inr o)) initWorld o eq_refl) as [_ [Hstage Hmain]].
  split.
  - apply (Hstage StageConfigure e).
    exists [Addr4 10 0 0 2], (ErrNew "IPC error -22: failed to set private_key").
    repeat split. discriminate.
  - rewrite (proj1 (Hmain e _ eq_refl)). reflexivity.
Defined.

(** C6: [main] leaves with exit code 0 exactly when the argument parser
    reports a help request; with 1 on every other parse error, on every
    error of [setupNet], on every error of [proxyListener], and after
    [Serve] has returned; and with no other code. *)
Theorem main_exit_codes (h : Host) (w : World) :
  (fst (main h w) = Exited 0
   <-> exists msg, hParse h = inl (Flags.FlagsError Flags.ErrHelp msg))
  /\ (forall err, hParse h = inl err ->
        (forall msg, err <> Flags.FlagsError Flags.ErrHelp msg) ->
        fst (main h w) = Exited 1)
  /\ (forall o r w1,
        hParse h = inr o ->
        setupNet h (parsedWorld w o) = (Returned r, w1) ->
        match r with
        | Err _ => fst (main h w) = Exited 1
        | Ok (dev, tnet) =>
            forall rl w2,
              proxyListener h tnet w1 = (Returned rl, w2) ->
              match rl with
              | Err _ => fst (main h w) = Exited 1
              | Ok l =>
                  forall d,
                    fst (proxyDialer tnet w2) = Returned d ->
                    hServeReturns h (mkProxy d (DNS o) (stats dev)) l = true ->
                    fst (main h w) = Exited 1
              end
        end)
  /\ (forall c, fst (main h w) = Exited c -> c = 0 \/ c = 1).
Proof.
  assert (Hcode : forall o c, hParse h = inr o ->
                              fst (main h w) = Exited c -> c = 1).
  { intros o c Hp. rewrite (main_parsed h w o Hp).
    destruct (parsedWorld_logger w o) as [lvl [Hl Hn]].
    exact (serveProxy_exit_code h _ lvl c Hl Hn). }
  split; [|split; [|split]].
  - split.
    + intro H0. destruct (hParse h) as [err|o] eqn:Hp.
      * rewrite (main_parse_error h w err Hp) in H0. cbn in H0.
        destruct err as [ty msg|e]; cbn in H0.
        -- destruct ty; cbn in H0; try discriminate H0.
           exists msg. reflexivity.
        -- discriminate H0.
      * specialize (Hcode o 0 eq_refl H0). discriminate Hcode.
    + intros [msg Hp]. rewrite (main_parse_error h w _ Hp). reflexivity.
  - intros err Hp Hnot. rewrite (main_parse_error h w err Hp). cbn.
    destruct err as [ty msg|e]; cbn; [|reflexivity].
    destruct ty; cbn; try reflexivity.
    exfalso. exact (Hnot msg eq_refl).
  - intros o r w1 Hp Hs.
    destruct (parsedWorld_logger w o) as [lvl [Hl Hn]].
    rewrite (main_parsed h w o Hp).
    destruct r as [[dev tnet]|e].
    + intros rl w2 Hpl. destruct rl as [l|e].
      * intros d Hd Hret.
        pose proof (serveProxy_served h _ w1 w2 dev tnet l d Hs Hpl Hd) as Hsv.
        cbv zeta in Hsv.
        assert (Ho : opts w2 = o).
        { destruct (setupNet_frame h (parsedWorld w o)) as [evs [Hf _]].
          rewrite Hs in Hf. cbn [snd] in Hf.
          destruct (proxyListener_frame h tnet w1) as [evs2 [Hf2 _]].
          rewrite Hpl in Hf2. cbn [snd] in Hf2. subst w2 w1. cbn.
          apply parsedWorld_opts. }
        rewrite Ho, Hret in Hsv. rewrite Hsv. reflexivity.
      * rewrite (serveProxy_listener_error h _ w1 w2 lvl dev tnet e Hl Hn Hs Hpl).
        reflexivity.
    + rewrite (serveProxy_setup_error h _ w1 lvl e Hl Hn Hs). reflexivity.
  - intros c Hc. destruct (hParse h) as [err|o] eqn:Hp.
    + rewrite (main_parse_error h w err Hp) in Hc. cbn in Hc.
      injection Hc as Hc. subst c.
      destruct err as [ty msg|e]; cbn; [|right; reflexivity].
      destruct ty; cbn; auto.
    + right. exact (Hcode o c eq_refl Hc).
Qed.

Lemma main_exit_codes_witness :
  fst (main (Sample.host (inl (Flags.FlagsError Flags.ErrHelp "Usage")))
            initWorld) = Exited 0
  /\ fst (main (Sample.host (inl (Flags.FlagsError Flags.ErrInvalidChoice
                                                    "Invalid value")))
               initWorld) = Exited 1
  /\ fst (main (Sample.host (inr (Sample.config "remote"))) initWorld)
     = Exited 1.
Proof.
  split; [|split].
  - apply (main_exit_codes
             (Sample.host (inl (Flags.FlagsError Flags.ErrHelp "Usage")))
             initWorld).
    exists "Usage". reflexivity.
  - apply (main_exit_codes
             (Sample.host (inl (Flags.FlagsError Flags.ErrInvalidChoice
                                                 "Invalid value")))
             initWorld) with (err := Flags.FlagsError Flags.ErrInvalidChoice
                                                      "Invalid value").
    + reflexivity.
    + intros msg H. discriminate H.
  - pose proof (main_exit_codes (Sample.host (inr (Sample.config "remote")))
                                initWorld) as [_ [_ [H _]]].
    specialize (H (Sample.config "remote") _ _ eq_refl eq_refl).
    cbv beta iota in H.
    specialize (H _ _ eq_refl). cbv beta iota in H.
    exact (H _ eq_refl eq_refl).
Defined.

(** ** The option table *)

Lemma mem_two (v a b : string) :
  Flags.mem v [a; b] = true <-> v = a \/ v = b.
Proof.
  cbn. rewrite orb_false_r, orb_true_iff, !String.eqb_eq.
  split; intros [H | H]; auto.
Qed.

(** C7: the [default] tags give MTU 1280, resolve interval 1m, listen
    address localhost:8080 and exit mode remote; the [choice] tags of the
    exit mode admit "remote" and "local" and nothing else; the
    instance-identity option is hidden. *)
Theorem option_defaults_and_choices :
  Flags.defaultOf "mtu" = Some "1280"
  /\ Flags.defaultOf "resolve-interval" = Some "1m"
  /\ Flags.defaultOf "listen" = Some "localhost:8080"
  /\ Flags.defaultOf "exit-mode" = Some "remote"
  /\ (forall v, Flags.acceptsValue "exit-mode" v = true
                <-> v = "remote" \/ v = "local")
  /\ Flags.isHidden "client-id" = true
  /\ ~ In "client-id" Flags.visible.
Proof.
  repeat split; try reflexivity.
  - intro H. apply (mem_two v "remote" "local"). exact H.
  - intro H. apply (mem_two v "remote" "local") in H. exact H.
  - cbn. intuition discriminate.
Qed.

(** X20: when the parser honours the [choice] tags of the exit mode,
    [main] never panics: it is kept from the nil listener of
    [proxyListener]. *)
Lemma main_never_panics (h : Host) (w : World) (o : options) :
  hParse h = inr o ->
  Flags.acceptsValue "exit-mode" (ExitMode o) = true ->
  fst (main h w) <> Panicked.
Proof.
  intros Hp Hacc.
  apply (mem_two (ExitMode o) "remote" "local") in Hacc.
  rewrite (main_parsed h w o Hp).
  destruct (parsedWorld_logger w o) as [lvl [Hl Hn]].
  destruct (setupNet_returns h (parsedWorld w o)) as [r Hr].
  destruct (setupNet h (parsedWorld w o)) as [r' w1] eqn:Hs.
  cbn in Hr. subst r'.
  destruct r as [[dev tnet]|e];
    [|rewrite (serveProxy_setup_error h _ w1 lvl e Hl Hn Hs); discriminate].
  destruct (setupNet_frame h (parsedWorld w o)) as [evs [Hf _]].
  rewrite Hs in Hf. cbn [snd] in Hf.
  assert (Ho : ExitMode (opts w1) = ExitMode o)
    by (subst w1; cbn; rewrite parsedWorld_opts; reflexivity).
  assert (Hl1 : logger w1 = Some (NewLogger lvl)) by (subst w1; exact Hl).
  destruct (proxyListener h tnet w1) as [rl w2] eqn:Hpl.
  destruct rl as [[l|e]| c | |].
  - destruct (proxyDialer_pure tnet w2) as [d Hd].
    rewrite (serveProxy_served h _ w1 w2 dev tnet l d Hs Hpl (f_equal fst Hd)).
    cbv zeta. destruct (hServeReturns h _ l); discriminate.
  - rewrite (serveProxy_listener_error h _ w1 w2 lvl dev tnet e Hl Hn Hs Hpl).
    discriminate.
  - unfold serveProxy, bind at 1. rewrite Hs. unfold bind at 1. rewrite Hpl.
    discriminate.
  - exfalso. revert Hpl. unfold proxyListener. unfold_go. cbn.
    rewrite Hl1. clear Hf.
    destruct (hResolveTCPAddr h (Listen (opts w1))); cbn; [|discriminate].
    destruct Hacc as [Hm | Hm]; rewrite Ho, Hm; cbn.
    + destruct (hListenTCP h HostStack a); cbn; [discriminate|].
      destruct lvl; discriminate.
    + destruct (hListenTCP h (VirtualStack tnet) a); cbn; [discriminate|].
      destruct lvl; discriminate.
  - exfalso. destruct (proxyListener_frame h tnet w1) as [evs2 [_ [[x Hx] | Hx]]];
      rewrite Hpl in Hx; discriminate Hx.
Qed.

(** ** The Endpoint Resolver with interval 0 *)

Lemma onTrigger_zero (s : Resolver.Session) (r : Resolver.Resolution) :
  Resolver.onTrigger 0 s r = s.
Proof. reflexivity. Qed.

(** C8: with resolve interval 0, however many would-be resolution triggers
    fire and whatever they would resolve to, the session's peer address is
    the one it had after setup and no resolution has been performed. *)
Theorem resolve_interval_zero_keeps_peer
        (o : options) (s : Resolver.Session) (rs : list Resolver.Resolution) :
  ResolveInterval o = 0 ->
  Resolver.peerAddr (Resolver.run (ResolveInterval o) s rs)
  = Resolver.peerAddr s
  /\ Resolver.resolutions (Resolver.run (ResolveInterval o) s rs)
     = Resolver.resolutions s.
Proof.
  intros ->. unfold Resolver.run.
  assert (H : fold_left (Resolver.onTrigger 0) rs s = s).
  { induction rs as [|r rs IH]; cbn [fold_left]; [reflexivity|].
    rewrite onTrigger_zero. exact IH. }
  rewrite H. split; reflexivity.
Qed.

Lemma resolve_interval_zero_keeps_peer_witness :
  let o := mkOptions ["10.0.0.2"] 0 EmptyString EmptyString 1280
                     "vpn.example.com:51820" EmptyString EmptyString 0
                     EmptyString 0 "localhost:8080" "remote" false
                     EmptyString in
  let peer := Resolver.mkAddrPort (Addr4 192 0 2 1) 51820 in
  let moved := Resolver.mkAddrPort (Addr4 192 0 2 99) 51820 in
  let s := Resolver.mkSession peer O in
  Resolver.peerAddr
    (Resolver.run (ResolveInterval o) s
       [Resolver.Resolved moved; Resolver.ResolveFailed (ErrNew "no such host");
        Resolver.Resolved moved])
  = peer.
Proof.
  intros o peer moved s.
  apply (resolve_interval_zero_keeps_peer o s).
  reflexivity.
Defined.

(** With a positive interval the same triggers do move the peer address,
    and a failed resolution keeps the last good one. *)
Example resolve_interval_positive_moves_peer :
  let peer := Resolver.mkAddrPort (Addr4 192 0 2 1) 51820 in
  let moved := Resolver.mkAddrPort (Addr4 192 0 2 99) 51820 in
  Resolver.run 60000000000 (Resolver.mkSession peer O)
    [Resolver.Resolved moved; Resolver.ResolveFailed (ErrNew "no such host")]
  = Resolver.mkSession moved 2.
Proof. reflexivity. Qed.

(** * Further properties of the code *)

(** ** Byte strings *)

Lemma sapp_assoc (a b c : string) : (a ++ b) ++ c = a ++ (b ++ c).
Proof. induction a as [|x a IH]; cbn; [reflexivity | rewrite IH; reflexivity]. Qed.

Lemma sapp_nil_r (a : string) : a ++ EmptyString = a.
Proof. induction a as [|x a IH]; cbn; [reflexivity | rewrite IH; reflexivity]. Qed.

Lemma slength_app (a b : string) :
  String.length (a ++ b) = (String.length a + String.length b)%nat.
Proof. induction a as [|x a IH]; cbn; [reflexivity | rewrite IH; reflexivity]. Qed.

Lemma stripPrefix_app (p s : string) : Usage.stripPrefix p (p ++ s) = Some s.
Proof.
  induction p as [|x p IH]; cbn; [reflexivity|].
  rewrite Ascii.eqb_refl. exact IH.
Qed.

Lemma stripSuffix_app (suf x : string) :
  Usage.stripSuffix suf (x ++ suf) = Some x.
Proof.
  induction x as [|c x IH].
  - cbn [append]. destruct suf; cbn; rewrite ?Ascii.eqb_refl, ?String.eqb_refl;
      reflexivity.
  - cbn [append Usage.stripSuffix].
    destruct (String.eqb (String c (x ++ suf)) suf) eqn:E.
    + apply String.eqb_eq in E. apply (f_equal String.length) in E.
      cbn in E. rewrite slength_app in E. exfalso.
      clear -E. induction (String.length suf); cbn in *.
      * rewrite Nat.add_0_r in E. discriminate E.
      * rewrite Nat.add_succ_r in E. injection E as E. auto.
    + rewrite IH. reflexivity.
Qed.

Lemma TrimSuffix_app (x suf : string) : Usage.TrimSuffix (x ++ suf) suf = x.
Proof. unfold Usage.TrimSuffix. rewrite stripSuffix_app. reflexivity. Qed.

Lemma lastIs_app (c : ascii) (a b : string) :
  b <> EmptyString -> Usage.lastIs c (a ++ b) = Usage.lastIs c b.
Proof.
  intro Hb. induction a as [|x a IH]; [reflexivity|].
  cbn [append Usage.lastIs]. rewrite IH.
  destruct (a ++ b) eqn:E; [|reflexivity].
  destruct a; cbn in E; [contradiction | discriminate E].
Qed.

Lemma noLF_lastIs (s : string) :
  Usage.noLF s = true -> Usage.lastIs Usage.LF s = false.
Proof.
  induction s as [|x s IH]; [reflexivity|]. cbn [Usage.noLF Usage.lastIs].
  intro H. apply andb_true_iff in H. destruct H as [Hx Hs].
  destruct s; [|exact (IH Hs)].
  apply negb_true_iff. exact Hx.
Qed.

Lemma noLF_app (a b : string) :
  Usage.noLF (a ++ b) = Usage.noLF a && Usage.noLF b.
Proof.
  induction a as [|x a IH]; cbn; [reflexivity|].
  rewrite IH, andb_assoc. reflexivity.
Qed.

Lemma dropCR_noLF (s : string) :
  Usage.noLF s = true -> Usage.noLF (Usage.dropCR s) = true.
Proof.
  induction s as [|x s IH]; [reflexivity|]. cbn [Usage.noLF]. intro H.
  apply andb_true_iff in H. destruct H as [Hx Hs].
  cbn [Usage.dropCR]. destruct s.
  - destruct (Ascii.eqb x Usage.CR); cbn; [reflexivity|].
    rewrite Hx. reflexivity.
  - cbn [Usage.noLF]. rewrite Hx. exact (IH Hs).
Qed.

Lemma dropCR_cr (s : string) : Usage.dropCR (s ++ Usage.cr) = s.
Proof.
  induction s as [|x s IH]; [reflexivity|].
  cbn [append Usage.dropCR]. rewrite IH.
  destruct (s ++ Usage.cr) eqn:E; [|reflexivity].
  destruct s; discriminate E.
Qed.

Lemma dropCR_id (s : string) :
  Usage.lastIs Usage.CR s = false -> Usage.dropCR s = s.
Proof.
  induction s as [|x s IH]; [reflexivity|].
  cbn [Usage.lastIs Usage.dropCR]. destruct s.
  - intros ->. reflexivity.
  - intro H. rewrite (IH H). reflexivity.
Qed.

(** ** The scanner *)

(** Every delivered line is free of newlines. *)
Lemma scanLines_noLF (data : string) :
  forall cur, Usage.noLF cur = true ->
  Forall (fun l => Usage.noLF l = true) (Usage.scanLines data cur).
Proof.
  induction data as [|c data IH]; intros cur Hcur; cbn [Usage.scanLines].
  - destruct cur; [constructor|]. unfold Usage.deliver.
    destruct (Usage.fits _); constructor; [|constructor].
    apply dropCR_noLF. exact Hcur.
  - destruct (Ascii.eqb c Usage.LF) eqn:E.
    + unfold Usage.deliver. destruct (Usage.fits cur); constructor.
      * apply dropCR_noLF. exact Hcur.
      * apply IH. reflexivity.
    + apply IH. rewrite noLF_app, Hcur. cbn. rewrite E. reflexivity.
Qed.

(** The scanner reads one newline-free line up to its newline. *)
Lemma scanLines_line (l rest : string) :
  Usage.noLF l = true ->
  forall cur,
    Usage.scanLines (l ++ Usage.nl ++ rest) cur
    = Usage.deliver (cur ++ l) (Usage.scanLines rest EmptyString).
Proof.
  induction l as [|x l IH]; intros Hl cur.
  - cbn. rewrite sapp_nil_r. reflexivity.
  - cbn [Usage.noLF] in Hl. apply andb_true_iff in Hl. destruct Hl as [Hx Hl].
    cbn [append Usage.scanLines]. apply negb_true_iff in Hx. rewrite Hx.
    rewrite (IH Hl), sapp_assoc. reflexivity.
Qed.

Lemma scanLines_file (ls : list (string * bool)) :
  Forall (fun l => Usage.scannable l = true) ls ->
  Usage.scanLines (Usage.file ls) EmptyString = map fst ls.
Proof.
  induction ls as [|[l crlf] ls IH]; intro H; [reflexivity|].
  inversion H as [|? ? Hl Hls]; subst.
  unfold Usage.scannable in Hl. cbn [fst snd] in Hl.
  apply andb_true_iff in Hl. destruct Hl as [Hl Hend].
  apply andb_true_iff in Hl. destruct Hl as [Hno Hfit].
  cbn [Usage.file map fst]. unfold Usage.written. cbn [fst snd].
  rewrite !sapp_assoc.
  destruct crlf.
  - rewrite <- (sapp_assoc l Usage.cr).
    rewrite scanLines_line.
    + cbn [append]. unfold Usage.deliver. rewrite Hfit, dropCR_cr, (IH Hls).
      reflexivity.
    + rewrite noLF_app, Hno. reflexivity.
  - cbn [append]. rewrite sapp_nil_r in Hfit.
    rewrite (scanLines_line l _ Hno). cbn [append]. unfold Usage.deliver.
    rewrite Hfit, (IH Hls). cbn in Hend. apply negb_true_iff in Hend.
    rewrite (dropCR_id l Hend). reflexivity.
Qed.

Lemma fold_addLine (ls : list string) :
  forall u, fold_left Usage.addLine ls u = u ++ Usage.indented ls.
Proof.
  induction ls as [|l ls IH]; intro u; cbn [fold_left Usage.indented].
  - symmetry. apply sapp_nil_r.
  - rewrite IH. unfold Usage.addLine. rewrite !sapp_assoc. reflexivity.
Qed.

(** ** The usage text *)

Lemma mainUsage_of_lines (readme : string) (ls : list string) :
  Usage.scanLines (Usage.TrimPrefix readme Usage.title) EmptyString = ls ->
  Usage.mainUsage readme
  = Usage.TrimSuffix (Usage.header ++ Usage.indented ls) Usage.nl.
Proof.
  intro H. unfold Usage.mainUsage. rewrite H, fold_addLine. reflexivity.
Qed.

Lemma indented_snoc (ls : list string) (l : string) :
  Usage.indented (ls ++ [l])
  = (Usage.indented ls ++ "  " ++ l) ++ Usage.nl.
Proof.
  induction ls as [|x ls IH]; cbn [app Usage.indented].
  - rewrite sapp_nil_r. cbn [append]. reflexivity.
  - rewrite IH. rewrite ?sapp_assoc. cbn [append]. rewrite ?sapp_assoc.
    reflexivity.
Qed.

(** X1: whatever the README holds, the usage text does not end in a
    newline. *)
Theorem usage_has_no_trailing_newline (readme : string) :
  Usage.lastIs Usage.LF (Usage.mainUsage readme) = false.
Proof.
  rewrite (mainUsage_of_lines readme _ eq_refl).
  pose proof (scanLines_noLF (Usage.TrimPrefix readme Usage.title)
                             EmptyString eq_refl) as Hno.
  destruct (Usage.scanLines (Usage.TrimPrefix readme Usage.title) EmptyString)
    as [|l0 ls0]; [reflexivity|].
  destruct (exists_last (l := l0 :: ls0)) as [front [x Hl]]; [discriminate|].
  rewrite Hl in *. rewrite indented_snoc, <- sapp_assoc, TrimSuffix_app.
  apply Forall_app in Hno. destruct Hno as [_ Hx].
  inversion Hx as [|? ? Hx0 _]; subst.
  rewrite <- sapp_assoc, lastIs_app.
  - destruct x as [|c x]; [reflexivity|].
    rewrite (lastIs_app Usage.LF "  " (String c x)); [|discriminate].
    apply noLF_lastIs. exact Hx0.
  - destruct x; discriminate.
Qed.

(** X2: for a README made of the title line and then lines the scanner
    gives back as they are, the usage text is the header followed by every
    line behind two spaces, with a newline after each line but the last;
    the first line so lands on the header's "Description:" line. *)
Theorem usage_indents_readme_lines
        (l : string * bool) (ls : list (string * bool)) :
  Forall (fun x => Usage.scannable x = true) (l :: ls) ->
  Usage.mainUsage (Usage.title ++ Usage.file (l :: ls)) ++ Usage.nl
  = Usage.header ++ Usage.indented (map fst (l :: ls)).
Proof.
  intro H.
  assert (Hs : Usage.scanLines
                 (Usage.TrimPrefix (Usage.title ++ Usage.file (l :: ls))
                                   Usage.title) EmptyString
               = map fst (l :: ls)).
  { unfold Usage.TrimPrefix. rewrite stripPrefix_app.
    apply scanLines_file. exact H. }
  rewrite (mainUsage_of_lines _ _ Hs).
  destruct (exists_last (l := map fst (l :: ls))) as [front [lst Hl]];
    [discriminate|].
  rewrite Hl, indented_snoc, <- sapp_assoc, TrimSuffix_app. reflexivity.
Qed.

Lemma usage_indents_readme_lines_witness :
  Usage.mainUsage (Usage.title ++ Usage.nl ++ "Usage" ++ Usage.cr ++ Usage.nl
                               ++ "  wghttp" ++ Usage.nl) ++ Usage.nl
  = Usage.header ++ "  " ++ Usage.nl ++ "  Usage" ++ Usage.nl
                 ++ "    wghttp" ++ Usage.nl.
Proof.
  apply (usage_indents_readme_lines
           (EmptyString, false) [("Usage", true); ("  wghttp", false)]).
  repeat constructor.
Defined.



Lemma scanLines_final_newline (body : string) :
  forall cur,
    body <> EmptyString -> Usage.lastIs Usage.LF body = false ->
    Usage.scanLines (body ++ Usage.nl) cur = Usage.scanLines body cur.
Proof.
  induction body as [|c body IH]; intros cur Hne Hlast; [contradiction|].
  cbn [append Usage.scanLines].
  destruct body as [|c' body'].
  - cbn [Usage.lastIs] in Hlast. rewrite Hlast. cbn.
    destruct (cur ++ String c EmptyString) eqn:E; [|reflexivity].
    destruct cur; discriminate E.
  - assert (Hl : Usage.lastIs Usage.LF (String c' body') = false)
      by exact Hlast.
    destruct (Ascii.eqb c Usage.LF);
      rewrite (IH _ ltac:(discriminate) Hl); reflexivity.
Qed.

(** X4: a README whose last line lacks its newline gives the same usage
    text as with the newline: the unterminated last line is kept. *)
Theorem usage_keeps_unterminated_last_line (body : string) :
  body <> EmptyString ->
  Usage.lastIs Usage.LF body = false ->
  Usage.mainUsage (Usage.title ++ body)
  = Usage.mainUsage (Usage.title ++ body ++ Usage.nl).
Proof.
  intros Hne Hlast. unfold Usage.mainUsage, Usage.TrimPrefix.
  rewrite !stripPrefix_app, (scanLines_final_newline body _ Hne Hlast).
  reflexivity.
Qed.

Lemma usage_keeps_unterminated_last_line_witness :
  Usage.mainUsage (Usage.title ++ "Usage:" ++ Usage.nl ++ "wghttp -v")
  = Usage.mainUsage (Usage.title ++ ("Usage:" ++ Usage.nl ++ "wghttp -v")
                                 ++ Usage.nl).
Proof.
  apply (usage_keeps_unterminated_last_line
           ("Usage:" ++ Usage.nl ++ "wghttp -v")).
  - discriminate.
  - reflexivity.
Defined.

(** X5: a line too long for the scanner's buffer ends the text: the lines
    before it are shown, that line and everything after it are not. *)
Theorem usage_stops_at_overlong_line
        (ls : list (string * bool)) (long rest : string) :
  Forall (fun x => Usage.scannable x = true) ls ->
  Usage.noLF long = true ->
  Usage.fits long = false ->
  Usage.mainUsage (Usage.title ++ Usage.file ls ++ long ++ Usage.nl ++ rest)
  = Usage.mainUsage (Usage.title ++ Usage.file ls).
Proof.
  intros H Hno Hfit.
  rewrite (mainUsage_of_lines _ (map fst ls)),
          (mainUsage_of_lines _ (map fst ls)); [reflexivity | |].
  - unfold Usage.TrimPrefix. rewrite stripPrefix_app.
    apply scanLines_file. exact H.
  - unfold Usage.TrimPrefix. rewrite stripPrefix_app.
    clear -H Hno Hfit.
    induction ls as [|[l crlf] ls IH].
    + cbn [Usage.file append map]. rewrite (scanLines_line long rest Hno).
      cbn [append]. unfold Usage.deliver. rewrite Hfit. reflexivity.
    + inversion H as [|? ? Hl Hls]; subst.
      unfold Usage.scannable in Hl. cbn [fst snd] in Hl.
      apply andb_true_iff in Hl. destruct Hl as [Hl Hend].
      apply andb_true_iff in Hl. destruct Hl as [Hnol Hfitl].
      cbn [Usage.file map fst]. unfold Usage.written. cbn [fst snd].
      rewrite !sapp_assoc. destruct crlf.
      * rewrite <- (sapp_assoc l Usage.cr). rewrite scanLines_line.
        -- cbn [append]. unfold Usage.deliver.
           rewrite Hfitl, dropCR_cr, (IH Hls). reflexivity.
        -- rewrite noLF_app, Hnol. reflexivity.
      * cbn [append]. rewrite sapp_nil_r in Hfitl.
        rewrite (scanLines_line l _ Hnol). cbn [append]. unfold Usage.deliver.
        rewrite Hfitl, (IH Hls). cbn in Hend. apply negb_true_iff in Hend.
        rewrite (dropCR_id l Hend). reflexivity.
Qed.

Lemma replicate_length (n : nat) (c : ascii) :
  String.length (replicate n c) = n.
Proof. induction n as [|n IH]; cbn; [reflexivity | rewrite IH; reflexivity]. Qed.

Lemma replicate_noLF (n : nat) (c : ascii) :
  Ascii.eqb c Usage.LF = false -> Usage.noLF (replicate n c) = true.
Proof.
  intro H. induction n as [|n IH]; cbn; [reflexivity|].
  rewrite H, IH. reflexivity.
Qed.

Lemma usage_stops_at_overlong_line_witness :
  let long := replicate (Z.to_nat 65536) "x"%char in
  Usage.mainUsage (Usage.title ++ Usage.file [("Usage:", false)]
                               ++ long ++ Usage.nl ++ "Options:")
  = Usage.mainUsage (Usage.title ++ Usage.file [("Usage:", false)]).
Proof.
  intro long.
  apply (usage_stops_at_overlong_line [("Usage:", false)] long "Options:").
  - repeat constructor.
  - apply replicate_noLF. reflexivity.
  - unfold Usage.fits, long. rewrite replicate_length, Z2Nat.id by discriminate.
    reflexivity.
Defined.

(** ** Flags and environment variables *)

(** X6: every option but [--verbose] can also be set through an
    environment variable, named as its long flag in upper case with dashes
    turned into underscores; no two options share a long flag or an
    environment variable. *)
Theorem options_env_names_follow_flags :
  (forall s, In s Flags.specs ->
             (Flags.env s = Flags.none <-> Flags.long s = "verbose")
             /\ (Flags.env s <> Flags.none ->
                 Flags.env s = envName (Flags.long s)))
  /\ NoDup (map Flags.long Flags.specs)
  /\ NoDup (map Flags.env Flags.specs).
Proof.
  split; [|split].
  - intros s H. cbn in H.
    repeat (destruct H as [<- | H];
            [cbn; split; [split; intro E; try discriminate E; reflexivity
                         | intro; try reflexivity; contradiction]|]).
    destruct H.
  - cbn. repeat (constructor; [cbn; intuition discriminate|]). constructor.
  - cbn. repeat (constructor; [cbn; intuition discriminate|]). constructor.
Qed.

(** ** The client-address loop *)

Lemma parseClientIPs_all (h : Host) (ss : list string) (parsed : list Addr) :
  Forall2 (fun s ip => hParseAddr h s = Ok ip) ss parsed ->
  forall acc, parseClientIPs h ss acc = Ok (acc ++ parsed)%list.
Proof.
  induction 1 as [|s ip ss parsed Hs _ IH]; intro acc; cbn [parseClientIPs].
  - rewrite app_nil_r. reflexivity.
  - rewrite Hs, IH, <- app_assoc. reflexivity.
Qed.

(** X7: the loop over the client addresses succeeds exactly when every
    entry parses, and then returns one address per entry in the order of
    the entries. *)
Theorem parseClientIPs_ok_iff (h : Host) (ss : list string) (ips : list Addr) :
  parseClientIPs h ss [] = Ok ips
  <-> Forall2 (fun s ip => hParseAddr h s = Ok ip) ss ips.
Proof.
  split.
  - intro H. destruct (parseClientIPs_ok h ss [] ips H) as [parsed [-> Hall]].
    exact Hall.
  - intro H. exact (parseClientIPs_all h ss ips H []).
Qed.

(** X8: when entries of the client-address list are malformed, [setupNet]
    reports the error of the first of them, whatever follows it in the
    list, and makes no call. *)
Theorem setupNet_reports_first_malformed
        (h : Host) (w : World) (pre post : list string) (s : string)
        (e0 : error) :
  ClientIPs (opts w) = (pre ++ s :: post)%list ->
  Forall (fun s' => exists ip, hParseAddr h s' = Ok ip) pre ->
  hParseAddr h s = Err e0 ->
  setupNet h w = (Returned (Err (Errorf_w "parse client IP: " e0)), w).
Proof.
  intros Hl Hpre Hbad. unfold setupNet. unfold_go. rewrite Hl.
  rewrite (parseClientIPs_first_bad h pre s post e0 [] Hpre Hbad).
  destruct pre; reflexivity.
Qed.

Lemma setupNet_reports_first_malformed_witness :
  let o := Sample.withClientIPs ["10.0.0.2"; "10.0.0.256"; "ten"]
                                (Sample.config "remote") in
  setupNet (Sample.host (inr o)) (Sample.world o)
  = (Returned
       (Err (Errorf_w "parse client IP: "
                      (ErrNew "ParseAddr: IPv4 field has value >255"))),
     Sample.world o).
Proof.
  intro o.
  apply (setupNet_reports_first_malformed
           (Sample.host (inr o)) (Sample.world o)
           ["10.0.0.2"] ["ten"] "10.0.0.256").
  - reflexivity.
  - constructor; [exists (Addr4 10 0 0 2); reflexivity | constructor].
  - reflexivity.
Defined.

(** ** The calls of [setupNet] *)

Lemma setupNet_ok_inv
      (h : Host) (w w1 : World) (dev : Device) (tnet : Net) :
  setupNet h w = (Returned (Ok (dev, tnet)), w1) ->
  SetupOk h w (net_addrs tnet)
  /\ dev = sessionDevice w (net_addrs tnet)
  /\ tnet = sessionNet w (net_addrs tnet)
  /\ w1 = addTrace w (setupCalls w (net_addrs tnet)).
Proof.
  intro Hrun. unfold SetupOk.
  destruct (ClientIPs (opts w)) as [|s0 ss] eqn:Hl.
  { rewrite (setupNet_empty h w Hl) in Hrun. discriminate Hrun. }
  assert (Hne : ClientIPs (opts w) <> []) by (rewrite Hl; discriminate).
  destruct (parseClientIPs h (ClientIPs (opts w)) []) as [ips|e0] eqn:Hp.
  - rewrite (setupNet_run h w ips Hne Hp) in Hrun. cbv zeta in Hrun.
    rewrite Hl in Hp.
    destruct (hCreateNetTUN h ips [] (MTU (opts w))) eqn:Hc;
      [discriminate Hrun|].
    destruct (hIpcSet h (sessionDevice w ips)) eqn:Hi; [discriminate Hrun|].
    destruct (hUp h (sessionDevice w ips)) eqn:Hu; [discriminate Hrun|].
    injection Hrun as Hd Ht Hw. subst dev tnet w1. cbn [sessionNet net_addrs].
    repeat split; try assumption; try reflexivity. discriminate.
  - exfalso. unfold setupNet in Hrun. unfold_go. rewrite Hl in Hrun.
    cbn [List.length Nat.eqb] in Hrun. rewrite <- Hl, Hp in Hrun.
    discriminate Hrun.
Qed.

(** X9: [setupNet] succeeds exactly when the client-address list is not
    empty, every entry parses, and stack creation, configuration and
    activation all succeed; it then returns the device and the stack it
    made, after exactly the calls CreateNetTUN, newConnBind, NewDevice,
    ipcSet, Up in this order. *)
Theorem setupNet_succeeds_iff
        (h : Host) (w w1 : World) (dev : Device) (tnet : Net) :
  setupNet h w = (Returned (Ok (dev, tnet)), w1)
  <-> exists ips,
      SetupOk h w ips
      /\ dev = sessionDevice w ips
      /\ tnet = sessionNet w ips
      /\ w1 = addTrace w (setupCalls w ips).
Proof.
  split.
  - intro Hrun. exists (net_addrs tnet). exact (setupNet_ok_inv h w w1 dev tnet Hrun).
  - intros [ips [[Hne [Hp [Hc [Hi Hu]]]] [-> [-> ->]]]].
    rewrite (setupNet_run h w ips Hne Hp). cbv zeta. rewrite Hc, Hi, Hu.
    reflexivity.
Qed.

(** A failed [setupNet] has made an initial segment of its calls, and an
    [Up] among them is the one that failed. *)
Lemma setupNet_failed (h : Host) (w w1 : World) (e : error) :
  setupNet h w = (Returned (Err e), w1) ->
  exists ips k,
    w1 = addTrace w (firstn k (setupCalls w ips))
    /\ forall dev, In (EvUp dev) (firstn k (setupCalls w ips)) ->
                   hUp h dev <> None.
Proof.
  intro Hrun.
  assert (Hnil : addTrace w [] = w).
  { unfold addTrace. rewrite app_nil_r. destruct w; reflexivity. }
  destruct (ClientIPs (opts w)) as [|s0 ss] eqn:Hl.
  - rewrite (setupNet_empty h w Hl) in Hrun. injection Hrun as _ Hw.
    exists [], O. cbn [firstn]. rewrite Hnil. split; [symmetry; exact Hw|].
    intros dev [].
  - assert (Hne : ClientIPs (opts w) <> []) by (rewrite Hl; discriminate).
    destruct (parseClientIPs h (ClientIPs (opts w)) []) as [ips|e0] eqn:Hp.
    + rewrite (setupNet_run h w ips Hne Hp) in Hrun. cbv zeta in Hrun.
      exists ips.
      destruct (hCreateNetTUN h ips [] (MTU (opts w))).
      { injection Hrun as _ Hw. exists 1%nat. split; [symmetry; exact Hw|].
        intros dev [H|[]]. discriminate H. }
      destruct (hIpcSet h (sessionDevice w ips)).
      { injection Hrun as _ Hw. exists 4%nat. split; [symmetry; exact Hw|].
        intros dev [H|[H|[H|[H|[]]]]]; discriminate H. }
      destruct (hUp h (sessionDevice w ips)) eqn:Hu; [|discriminate Hrun].
      injection Hrun as _ Hw. exists 5%nat. split; [symmetry; exact Hw|].
      intros dev [H|[H|[H|[H|[H|[]]]]]]; try discriminate H.
      injection H as <-. rewrite Hu. discriminate.
    + unfold setupNet in Hrun. unfold_go. rewrite Hl in Hrun.
      cbn [List.length Nat.eqb] in Hrun. rewrite <- Hl, Hp in Hrun.
      injection Hrun as _ Hw.
      exists [], O. cbn [firstn]. rewrite Hnil. split; [symmetry; exact Hw|].
      intros dev [].
Qed.

Lemma setupNet_events (h : Host) (w : World) :
  (snd (setupNet h w) = w
   /\ forall ips, ClientIPs (opts w) <> [] ->
                  parseClientIPs h (ClientIPs (opts w)) [] <> Ok ips)
  \/ exists ips,
      ClientIPs (opts w) <> []
      /\ parseClientIPs h (ClientIPs (opts w)) [] = Ok ips
      /\ ((hCreateNetTUN h ips [] (MTU (opts w)) <> None
           /\ snd (setupNet h w) = addTrace w (firstn 1 (setupCalls w ips)))
          \/ (hCreateNetTUN h ips [] (MTU (opts w)) = None
              /\ hIpcSet h (sessionDevice w ips) <> None
              /\ snd (setupNet h w) = addTrace w (firstn 4 (setupCalls w ips)))
          \/ (hCreateNetTUN h ips [] (MTU (opts w)) = None
              /\ hIpcSet h (sessionDevice w ips) = None
              /\ snd (setupNet h w) = addTrace w (setupCalls w ips))).
Proof.
  destruct (ClientIPs (opts w)) as [|s0 ss] eqn:Hl.
  - left. rewrite (setupNet_empty h w Hl). split; [reflexivity|].
    intros ips Hne. contradiction.
  - assert (Hne : ClientIPs (opts w) <> []) by (rewrite Hl; discriminate).
    destruct (parseClientIPs h (ClientIPs (opts w)) []) as [ips|e0] eqn:Hp.
    + right. exists ips. rewrite <- Hl. split; [exact Hne|].
      split; [exact Hp|].
      rewrite (setupNet_run h w ips Hne Hp). cbv zeta.
      destruct (hCreateNetTUN h ips [] (MTU (opts w))) eqn:Hc.
      { left. split; first [reflexivity | discriminate]. }
      destruct (hIpcSet h (sessionDevice w ips)) eqn:Hi.
      { right; left. repeat split; first [reflexivity | discriminate]. }
      right; right.
      destruct (hUp h (sessionDevice w ips)); repeat split; reflexivity.
    + left. split.
      * unfold setupNet. unfold_go. rewrite Hl.
        cbn [List.length Nat.eqb]. rewrite <- Hl, Hp. reflexivity.
      * intros ips _. rewrite <- Hl, Hp. discriminate.
Qed.


(** X11: [Up] is called on a device only after [ipcSet] has accepted the
    configuration for that same device, and it is the last call. *)
Theorem up_only_after_configuration
        (h : Host) (w : World) (evs : list Event) (dev : Device) :
  trace (snd (setupNet h w)) = (trace w ++ evs)%list ->
  In (EvUp dev) evs ->
  hIpcSet h dev = None
  /\ exists ips front,
      dev = sessionDevice w ips
      /\ evs = (front ++ [EvIpcSet dev; EvUp dev])%list.
Proof.
  intros Htr Hin.
  destruct (setupNet_events h w)
    as [[Hw _] | [ips [_ [_ [[_ Hw] | [[_ [_ Hw]] | [_ [Hi Hw]]]]]]]];
    rewrite Hw in Htr; cbn in Htr.
  - rewrite <- (app_nil_r (trace w)) in Htr at 1.
    apply app_inv_head in Htr. subst evs. destruct Hin.
  - apply app_inv_head in Htr. subst evs.
    destruct Hin as [H|[]]; discriminate H.
  - apply app_inv_head in Htr. subst evs.
    destruct Hin as [H|[H|[H|[H|[]]]]]; discriminate H.
  - apply app_inv_head in Htr. subst evs.
    destruct Hin as [H|[H|[H|[H|[H|[]]]]]]; try discriminate H.
    injection H as H. subst dev. split; [exact Hi|].
    exists ips. eexists. split; [reflexivity|].
    cbn. instantiate (1 := [_; _; _]). reflexivity.
Qed.

Lemma up_only_after_configuration_witness :
  let o := Sample.config "remote" in
  let w := Sample.world o in
  let dev := sessionDevice w [Addr4 10 0 0 2] in
  Sample.IpcSet dev = None
  /\ exists ips front,
      dev = sessionDevice w ips
      /\ setupCalls w [Addr4 10 0 0 2]
         = (front ++ [EvIpcSet dev; EvUp dev])%list.
Proof.
  intros o w dev.
  apply (up_only_after_configuration (Sample.host (inr o)) w
           (setupCalls w [Addr4 10 0 0 2]) dev).
  - reflexivity.
  - right; right; right; right; left. reflexivity.
Defined.

(** X12: when the virtual stack cannot be created, [setupNet] returns that
    error after the one call to CreateNetTUN: no binding is asked for and
    no device is made. *)
Theorem stack_failure_makes_no_session
        (h : Host) (w : World) (ips : list Addr) (e : error) :
  ClientIPs (opts w) <> [] ->
  parseClientIPs h (ClientIPs (opts w)) [] = Ok ips ->
  hCreateNetTUN h ips [] (MTU (opts w)) = Some e ->
  setupNet h w
  = (Returned (Err (Errorf_w "create netstack tun: " e)),
     addTrace w [EvCreateNetTUN ips [] (MTU (opts w))]).
Proof.
  intros Hne Hp Hc. rewrite (setupNet_run h w ips Hne Hp). cbv zeta.
  rewrite Hc. reflexivity.
Qed.

Lemma stack_failure_makes_no_session_witness :
  let o := mkOptions ["10.0.0.2"] 0 EmptyString EmptyString 68
                     "vpn.example.com:51820" EmptyString EmptyString 0
                     EmptyString 0 "localhost:8080" "remote" false
                     EmptyString in
  let small := ErrNew "CreateNetTUN: MTU too small" in
  let h := mkHost (inr o) Sample.ParseAddr
                  (fun _ _ mtu => if mtu <? 576 then Some small else None)
                  Sample.IpcSet (fun _ => None) Sample.ResolveTCPAddr
                  Sample.ListenTCP (fun _ _ => true) in
  setupNet h (Sample.world o)
  = (Returned (Err (Errorf_w "create netstack tun: " small)),
     addTrace (Sample.world o) [EvCreateNetTUN [Addr4 10 0 0 2] [] 68]).
Proof.
  intros o small h.
  apply (stack_failure_makes_no_session h (Sample.world o) [Addr4 10 0 0 2]).
  - discriminate.
  - reflexivity.
  - reflexivity.
Defined.

(** ** The calls of [proxyListener] *)

Lemma proxyListener_run (h : Host) (tnet : Net) (w : World) :
  proxyListener h tnet w =
  let resolve := EvResolveTCPAddr (Listen (opts w)) in
  match hResolveTCPAddr h (Listen (opts w)) with
  | Err e =>
      (Returned (Err (Errorf_w "resolve listen addr: " e)),
       addTrace w [resolve])
  | Ok a =>
      match listenOn (ExitMode (opts w)) tnet with
      | None => (Panicked, addTrace w [resolve])
      | Some on =>
          match hListenTCP h on a with
          | Some e =>
              (Returned (Err (Errorf_w (listenErrPrefix on) e)),
               addTrace w [resolve; EvListenTCP on a])
          | None =>
              match logger w with
              | None => (Panicked, addTrace w [resolve; EvListenTCP on a])
              | Some lg =>
                  (Returned (Ok (mkListener on a)),
                   addTrace w ([resolve; EvListenTCP on a]
                               ++ listeningLog lg a))
              end
          end
      end
  end.
Proof.
  unfold proxyListener, listenOn, listeningLog, addTrace. unfold_go. cbn.
  destruct (hResolveTCPAddr h (Listen (opts w))) as [a|e]; cbn;
    [|reflexivity].
  destruct (String.eqb (ExitMode (opts w)) "local"); cbn.
  - destruct (hListenTCP h (VirtualStack tnet) a); cbn;
      [rewrite <- app_assoc; reflexivity|].
    destruct (logger w) as [[lvl]|]; cbn;
      [destruct lvl; cbn|]; rewrite <- ?app_assoc; reflexivity.
  - destruct (String.eqb (ExitMode (opts w)) "remote"); cbn; [|reflexivity].
    destruct (hListenTCP h HostStack a); cbn;
      [rewrite <- app_assoc; reflexivity|].
    destruct (logger w) as [[lvl]|]; cbn;
      [destruct lvl; cbn|]; rewrite <- ?app_assoc; reflexivity.
Qed.

(** X13: a listen address that does not resolve is reported as "resolve
    listen addr: ..." before any socket is asked for, whatever the exit
    mode is, even one outside "local" and "remote". *)
Theorem unresolved_listen_address_opens_no_socket
        (h : Host) (tnet : Net) (w : World) (e : error) :
  hResolveTCPAddr h (Listen (opts w)) = Err e ->
  proxyListener h tnet w
  = (Returned (Err (Errorf_w "resolve listen addr: " e)),
     addTrace w [EvResolveTCPAddr (Listen (opts w))]).
Proof.
  intro H. rewrite proxyListener_run. cbv zeta. rewrite H. reflexivity.
Qed.

Lemma unresolved_listen_address_opens_no_socket_witness :
  let o := mkOptions ["10.0.0.2"] 0 EmptyString EmptyString 1280
                     "vpn.example.com:51820" EmptyString EmptyString 0
                     EmptyString 0 "localhost" "direct" false EmptyString in
  proxyListener (Sample.host (inr o)) (mkNet [] [] 1280) (Sample.world o)
  = (Returned (Err (Errorf_w "resolve listen addr: "
                             (ErrNew "missing port in address"))),
     addTrace (Sample.world o) [EvResolveTCPAddr "localhost"]).
Proof.
  intro o.
  apply (unresolved_listen_address_opens_no_socket
           (Sample.host (inr o)) (mkNet [] [] 1280) (Sample.world o)).
  reflexivity.
Defined.

(** X14: when listening fails, the error is returned under a text that
    names the stack ("create listener on netstack: " for the virtual
    stack, "create listener on local net: " for the host); the one
    attempt is not repeated, on this stack or on the other, and nothing is
    logged. *)
Theorem refused_listener_names_its_stack
        (h : Host) (tnet : Net) (w : World) (a : TCPAddr) (on : Stack)
        (e : error) :
  hResolveTCPAddr h (Listen (opts w)) = Ok a ->
  listenOn (ExitMode (opts w)) tnet = Some on ->
  hListenTCP h on a = Some e ->
  proxyListener h tnet w
  = (Returned (Err (Errorf_w (listenErrPrefix on) e)),
     addTrace w [EvResolveTCPAddr (Listen (opts w)); EvListenTCP on a]).
Proof.
  intros Ha Hon He. rewrite proxyListener_run. cbv zeta.
  rewrite Ha, Hon, He. reflexivity.
Qed.

Lemma refused_listener_names_its_stack_witness :
  let o := mkOptions ["10.0.0.2"] 0 EmptyString EmptyString 1280
                     "vpn.example.com:51820" EmptyString EmptyString 0
                     EmptyString 0 "127.0.0.1:0" "local" false EmptyString in
  let n := mkNet [Addr4 10 0 0 2] [] 1280 in
  proxyListener (Sample.host (inr o)) n (Sample.world o)
  = (Returned (Err (Errorf_w "create listener on netstack: "
                             (ErrNew "listen: bad port"))),
     addTrace (Sample.world o)
              [EvResolveTCPAddr "127.0.0.1:0";
               EvListenTCP (VirtualStack n) (Sample.loopback 0)]).
Proof.
  intros o n.
  apply (refused_listener_names_its_stack
           (Sample.host (inr o)) n (Sample.world o) (Sample.loopback 0)
           (VirtualStack n) (ErrNew "listen: bad port"));
    reflexivity.
Defined.

(** X15: [proxyListener] asks for at most one listener: for none when the
    listen address does not resolve or the exit mode is neither "local"
    nor "remote", and otherwise for exactly one, on the stack of the mode
    and at the resolved address. *)
Theorem proxyListener_listens_at_most_once
        (h : Host) (tnet : Net) (w : World) :
  listens (trace (snd (proxyListener h tnet w)))
  = (listens (trace w)
     ++ match hResolveTCPAddr h (Listen (opts w)),
              listenOn (ExitMode (opts w)) tnet with
        | Ok a, Some on => [(on, a)]
        | _, _ => []
        end)%list.
Proof.
  rewrite proxyListener_run. cbv zeta. unfold listeningLog.
  destruct (hResolveTCPAddr h (Listen (opts w))) as [a|e];
    [|cbn [snd addTrace trace]; solve_listens].
  destruct (listenOn (ExitMode (opts w)) tnet) as [on|];
    [|cbn [snd addTrace trace]; solve_listens].
  destruct (hListenTCP h on a); [cbn [snd addTrace trace]; solve_listens|].
  destruct (logger w) as [[lvl]|]; [|cbn [snd addTrace trace]; solve_listens].
  destruct lvl; cbn [snd addTrace trace log_level]; solve_listens.
Qed.

(** X16: [proxyListener] panics in exactly two situations, both after the
    listen address has resolved: the exit mode is neither "local" nor
    "remote" (the nil listener is asked for its address), or the listener
    was made while [logger] is still nil. *)
Theorem proxyListener_panics_iff (h : Host) (tnet : Net) (w : World) :
  fst (proxyListener h tnet w) = Panicked
  <-> exists a,
      hResolveTCPAddr h (Listen (opts w)) = Ok a
      /\ (listenOn (ExitMode (opts w)) tnet = None
          \/ exists on, listenOn (ExitMode (opts w)) tnet = Some on
                        /\ hListenTCP h on a = None
                        /\ logger w = None).
Proof.
  rewrite proxyListener_run. cbv zeta.
  destruct (hResolveTCPAddr h (Listen (opts w))) as [a|e].
  - destruct (listenOn (ExitMode (opts w)) tnet) as [on|].
    + destruct (hListenTCP h on a) as [e|] eqn:Hl.
      * split; [discriminate|].
        intros [a' [Ha [H | [on' [Hon [He _]]]]]]; [discriminate H|].
        injection Ha as <-. injection Hon as <-. congruence.
      * destruct (logger w) as [lg|] eqn:Hlg.
        -- split; [discriminate|].
           intros [a' [_ [H | [on' [_ [_ H]]]]]]; discriminate H.
        -- split; [|reflexivity]. intros _. exists a. split; [reflexivity|].
           right. exists on. repeat split. exact Hl.
    + split; [|reflexivity]. intros _. exists a. split; [reflexivity|].
      left. reflexivity.
  - split; [discriminate|]. intros [a [H _]]. discriminate H.
Qed.

(** ** The runs of [main] *)

Lemma parsedWorld_trace (w : World) (o : options) :
  trace (parsedWorld w o) = (trace w ++ optionsLog o)%list.
Proof.
  unfold parsedWorld, optionsLog. destruct (Verbose o); cbn;
    [reflexivity | symmetry; apply app_nil_r].
Qed.

Lemma proxyDialer_reads_opts (tnet : Net) (w w' : World) :
  opts w = opts w' -> fst (proxyDialer tnet w) = fst (proxyDialer tnet w').
Proof.
  intro H. unfold proxyDialer. unfold_go. rewrite H.
  destruct (String.eqb (ExitMode (opts w')) "local"); [reflexivity|].
  destruct (String.eqb (ExitMode (opts w')) "remote"); reflexivity.
Qed.

Ltac same_world Ho Hl Ht :=
  unfold addTrace; cbn [opts logger trace];
  rewrite ?Ho, ?Hl, ?Ht, <- ?app_assoc; cbn [app];
  rewrite <- ?app_assoc; reflexivity.

(** Every run of [main] that gets past [Parse] is one of [MainRun]. *)
Lemma main_run (h : Host) (w : World) (o : options) :
  hParse h = inr o ->
  exists evs out,
    main h w
    = (out, mkWorld o (logger (parsedWorld w o)) (trace w ++ evs))
    /\ MainRun h w o evs out.
Proof.
  intro Hparse. rewrite (main_parsed h w o Hparse).
  destruct (parsedWorld_logger w o) as [lvl [Hl Hn]].
  pose proof (parsedWorld_opts w o) as Ho.
  pose proof (parsedWorld_trace w o) as Ht.
  destruct (setupNet_returns h (parsedWorld w o)) as [r Hr].
  destruct (setupNet h (parsedWorld w o)) as [out1 w1] eqn:Hs.
  cbn [fst] in Hr. subst out1.
  destruct r as [[dev tnet]|e].
  - destruct (setupNet_ok_inv h _ w1 dev tnet Hs) as [Hok [Hd [Hn' Hw1]]].
    set (ips := net_addrs tnet) in *. clearbody ips. subst dev tnet.
    pose proof (proxyListener_run h (sessionNet (parsedWorld w o) ips) w1)
      as Hpl.
    cbv zeta in Hpl.
    assert (Ho1 : opts w1 = o) by (subst w1; exact Ho).
    assert (Hl1 : logger w1 = Some (NewLogger lvl)) by (subst w1; exact Hl).
    rewrite Ho1, Hl1 in Hpl.
    destruct (hResolveTCPAddr h (Listen o)) as [a|e] eqn:Ha.
    + destruct (listenOn (ExitMode o) (sessionNet (parsedWorld w o) ips))
        as [on|] eqn:Hon.
      * destruct (hListenTCP h on a) as [e|] eqn:Hlis.
        -- do 2 eexists. split; [|exact (MR_refused h w o ips a on e Hok Ha Hon Hlis)].
           rewrite (serveProxy_listener_error h _ w1 _ lvl _ _ _ Hl Hn Hs Hpl).
           f_equal. subst w1. same_world Ho Hl Ht.
        -- destruct (proxyDialer_pure (sessionNet (parsedWorld w o) ips)
                                      (parsedWorld w o)) as [d Hd].
           assert (Hd2 : fst (proxyDialer (sessionNet (parsedWorld w o) ips)
                                (addTrace w1
                                   ([EvResolveTCPAddr (Listen o);
                                     EvListenTCP on a]
                                    ++ listeningLog (NewLogger lvl) a)))
                         = Returned d).
           { rewrite (proxyDialer_reads_opts _ _ (parsedWorld w o)).
             - rewrite Hd. reflexivity.
             - cbn [addTrace opts]. rewrite Ho1, Ho. reflexivity. }
           do 2 eexists. split;
             [|exact (MR_served h w o ips a on (NewLogger lvl) d
                                Hok Ha Hon Hlis Hl (f_equal fst Hd))].
           rewrite (serveProxy_served h _ w1 _ _ _ _ d Hs Hpl Hd2). cbv zeta.
           cbn [addTrace opts]. rewrite Ho1.
           f_equal. subst w1. same_world Ho Hl Ht.
      * do 2 eexists. split; [|exact (MR_bad_mode h w o ips a Hok Ha Hon)].
        unfold serveProxy, bind at 1. rewrite Hs. unfold bind at 1.
        rewrite Hpl. f_equal. subst w1. same_world Ho Hl Ht.
    + do 2 eexists. split; [|exact (MR_unresolved h w o ips e Hok Ha)].
      rewrite (serveProxy_listener_error h _ w1 _ lvl _ _ _ Hl Hn Hs Hpl).
      f_equal. subst w1. same_world Ho Hl Ht.
  - destruct (setupNet_failed h _ w1 e Hs) as [ips [k [Hw1 Hup]]].
    do 2 eexists. split; [|exact (MR_setup_failed h w o e ips k w1 Hs Hw1 Hup)].
    rewrite (serveProxy_setup_error h _ w1 lvl e Hl Hn Hs).
    f_equal. subst w1. same_world Ho Hl Ht.
Qed.

Lemma In_firstn (A : Type) (x : A) (n : nat) (l : list A) :
  In x (firstn n l) -> In x l.
Proof.
  intro H. rewrite <- (firstn_skipn n l). apply in_or_app. left. exact H.
Qed.

(** The calls of [setupNet] are about the tunnel only. *)
Lemma setupCalls_build (w : World) (ips : list Addr) (e : Event) :
  In e (setupCalls w ips) ->
  startsProxy e = false /\ isServe e = false /\ isVerboseLog e = false.
Proof.
  intros [<-|[<-|[<-|[<-|[<-|[]]]]]]; repeat split.
Qed.

Lemma optionsLog_only_logs (o : options) (e : Event) :
  In e (optionsLog o) ->
  Verbose o = true /\ startsProxy e = false /\ isServe e = false.
Proof.
  unfold optionsLog. destruct (Verbose o); [|intros []].
  intros [<-|[]]. repeat split.
Qed.

Lemma listeningLog_only_logs (lg : Logger) (a : TCPAddr) (e : Event) :
  In e (listeningLog lg a) ->
  log_level lg = LogLevelVerbose /\ isServe e = false
  /\ forall on a', e <> EvListenTCP on a'.
Proof.
  unfold listeningLog. destruct (log_level lg); [intros [] | intros [] |].
  intros [<-|[]]. repeat split. intros on a'. discriminate.
Qed.

Lemma parsedWorld_level (w : World) (o : options) :
  logger (parsedWorld w o)
  = Some (NewLogger (if Verbose o then LogLevelVerbose else LogLevelError)).
Proof. unfold parsedWorld. destruct (Verbose o); reflexivity. Qed.

(** The dialer handed to the proxy and the stack listened on are the pair
    of the spec's Exit Router. *)
Lemma dialer_and_listener_pair
      (tnet : Net) (w : World) (on : Stack) (d : option Dialer) :
  listenOn (ExitMode (opts w)) tnet = Some on ->
  fst (proxyDialer tnet w) = Returned d ->
  exists d', d = Some d'
             /\ spec_route (ExitMode (opts w)) tnet = Some (dialer_stack d', on)
             /\ dialer_stack d' <> on.
Proof.
  unfold listenOn, proxyDialer, spec_route. unfold_go. cbn.
  destruct (String.eqb (ExitMode (opts w)) "local") eqn:El.
  - apply String.eqb_eq in El. rewrite El. cbn.
    intros Hon Hd. injection Hon as <-. injection Hd as <-.
    exists HostDialContext. repeat split. discriminate.
  - destruct (String.eqb (ExitMode (opts w)) "remote") eqn:Er;
      [|discriminate].
    intros Hon Hd. injection Hon as <-. cbn in Hd. injection Hd as <-.
    exists (NetDialContext tnet). repeat split. discriminate.
Qed.

Ltac run_of_main Hparse Htr evs Hrun :=
  let evs' := fresh "evs'" in
  let out := fresh "out" in
  let Hm := fresh "Hm" in
  match type of Hparse with
  | hParse ?h = inr ?o =>
      match type of Htr with
      | trace (snd (main h ?w)) = _ =>
          destruct (main_run h w o Hparse) as [evs' [out [Hm Hrun]]];
          rewrite Hm in Htr; cbn [snd trace] in Htr;
          apply app_inv_head in Htr; subst evs'
      end
  end.

(** X17: [main] starts the proxy at most once and as its last call, and
    only over a tunnel that was set up completely (its device configured
    and brought up before); the proxy then gets a dialer and a listener on
    the two different stacks the exit mode assigns, the listener at the
    resolved listen address, with the configured DNS and the statistics of
    that device. *)
Theorem main_serves_only_over_live_tunnel
        (h : Host) (w : World) (o : options) (evs : list Event)
        (p : Proxy) (l : Listener) :
  hParse h = inr o ->
  trace (snd (main h w)) = (trace w ++ evs)%list ->
  In (EvServe p l) evs ->
  exists ips d front,
    let w0 := parsedWorld w o in
    SetupOk h w0 ips
    /\ evs = (front ++ [EvServe p l])%list
    /\ filter isServe front = []
    /\ In (EvUp (sessionDevice w0 ips)) front
    /\ p = mkProxy (Some d) (DNS o) (stats (sessionDevice w0 ips))
    /\ spec_route (ExitMode o) (sessionNet w0 ips)
       = Some (dialer_stack d, lis_stack l)
    /\ dialer_stack d <> lis_stack l
    /\ hResolveTCPAddr h (Listen o) = Ok (lis_addr l).
Proof.
  intros Hparse Htr Hin. run_of_main Hparse Htr evs Hrun.
  assert (Hno : forall k ips x,
             In x (optionsLog o
                   ++ firstn k (setupCalls (parsedWorld w o) ips))%list ->
             isServe x = false).
  { intros k ips x Hx. apply in_app_or in Hx. destruct Hx as [Hx|Hx].
    - apply (optionsLog_only_logs o x Hx).
    - apply In_firstn in Hx. apply (setupCalls_build _ _ x Hx). }
  inversion Hrun as [e ips k w1 w0 Hs Hw1 Hup
                    | ips e w0 Hok Ha
                    | ips a w0 Hok Ha Hon
                    | ips a on e w0 Hok Ha Hon Hl
                    | ips a on lg d w0 p0 l0 Hok Ha Hon Hl Hlg Hd];
    subst.
  - exfalso. rewrite app_assoc in Hin. apply in_app_or in Hin.
    destruct Hin as [Hin|[Hin|[]]]; [|discriminate Hin].
    specialize (Hno k ips _ Hin). discriminate Hno.
  - exfalso. rewrite app_assoc in Hin. apply in_app_or in Hin.
    destruct Hin as [Hin|[Hin|[Hin|[]]]]; try discriminate Hin.
    specialize (Hno 5%nat ips _ Hin). discriminate Hno.
  - exfalso. rewrite app_assoc in Hin. apply in_app_or in Hin.
    destruct Hin as [Hin|[Hin|[]]]; try discriminate Hin.
    specialize (Hno 5%nat ips _ Hin). discriminate Hno.
  - exfalso. rewrite app_assoc in Hin. apply in_app_or in Hin.
    destruct Hin as [Hin|[Hin|[Hin|[Hin|[]]]]]; try discriminate Hin.
    specialize (Hno 5%nat ips _ Hin). discriminate Hno.
  - assert (Hfront : forall x,
               In x (optionsLog o ++ setupCalls w0 ips
                     ++ [EvResolveTCPAddr (Listen o); EvListenTCP on a]
                     ++ listeningLog lg a)%list ->
               isServe x = false).
    { intros x Hx. rewrite app_assoc in Hx. apply in_app_or in Hx.
      destruct Hx as [Hx|Hx]; [exact (Hno 5%nat ips x Hx)|].
      apply in_app_or in Hx. destruct Hx as [[<-|[<-|[]]]|Hx];
        try reflexivity.
      apply (listeningLog_only_logs lg a x Hx). }
    assert (Hlast : EvServe p l = EvServe p0 l0).
    { rewrite !app_assoc in Hin. apply in_app_or in Hin.
      destruct Hin as [Hin|[Hin|[]]]; [|symmetry; exact Hin].
      rewrite <- !app_assoc in Hin. specialize (Hfront _ Hin).
      discriminate Hfront. }
    injection Hlast as -> ->.
    assert (Ho : opts w0 = o) by apply parsedWorld_opts.
    rewrite <- Ho in Hon.
    destruct (dialer_and_listener_pair _ w0 on d Hon Hd)
      as [d' [-> [Hroute Hneq]]].
    rewrite Ho in Hroute.
    exists ips, d',
      (optionsLog o ++ setupCalls w0 ips
       ++ [EvResolveTCPAddr (Listen o); EvListenTCP on a]
       ++ listeningLog lg a)%list.
    cbv zeta. split; [exact Hok|]. split.
    { rewrite <- !app_assoc. reflexivity. }
    split.
    { clear -Hfront.
      induction (optionsLog o ++ setupCalls w0 ips
                 ++ [EvResolveTCPAddr (Listen o); EvListenTCP on a]
                 ++ listeningLog lg a)%list as [|x xs IH]; [reflexivity|].
      cbn [filter]. rewrite (Hfront x (or_introl eq_refl)).
      apply IH. intros y Hy. apply Hfront. right. exact Hy. }
    split.
    { apply in_or_app. right. apply in_or_app. left.
      right; right; right; right; left. reflexivity. }
    repeat split; assumption.
Qed.

Lemma main_serves_only_over_live_tunnel_witness :
  let o := Sample.config "local" in
  let n := mkNet [Addr4 10 0 0 2] [] 1280 in
  let dev := NewDevice (TunOf n) (newConnBind EmptyString)
                       (Some (NewLogger LogLevelError)) in
  let l := mkListener (VirtualStack n) (Sample.loopback 8080) in
  let p := mkProxy (Some HostDialContext) EmptyString (stats dev) in
  exists ips d front,
    SetupOk (Sample.host (inr o)) (parsedWorld initWorld o) ips
    /\ (setupCalls (parsedWorld initWorld o) [Addr4 10 0 0 2]
        ++ [EvResolveTCPAddr "127.0.0.1:8080";
            EvListenTCP (VirtualStack n) (Sample.loopback 8080);
            EvServe p l])%list
       = (front ++ [EvServe p l])%list
    /\ filter isServe front = []
    /\ In (EvUp (sessionDevice (parsedWorld initWorld o) ips)) front
    /\ p = mkProxy (Some d) (DNS o)
                   (stats (sessionDevice (parsedWorld initWorld o) ips))
    /\ spec_route (ExitMode o) (sessionNet (parsedWorld initWorld o) ips)
       = Some (dialer_stack d, lis_stack l)
    /\ dialer_stack d <> lis_stack l
    /\ Sample.ResolveTCPAddr (Listen o) = Ok (lis_addr l).
Proof.
  intros o n dev l p.
  apply (main_serves_only_over_live_tunnel
           (Sample.host (inr o)) initWorld o
           (setupCalls (parsedWorld initWorld o) [Addr4 10 0 0 2]
            ++ [EvResolveTCPAddr "127.0.0.1:8080";
                EvListenTCP (VirtualStack n) (Sample.loopback 8080);
                EvServe p l])%list p l).
  - reflexivity.
  - reflexivity.
  - cbn. right; right; right; right; right; right; right; left. reflexivity.
Defined.

Lemma filter_none (A : Type) (f : A -> bool) (l : list A) :
  (forall x, In x l -> f x = false) -> filter f l = [].
Proof.
  induction l as [|x xs IH]; intro H; [reflexivity|].
  cbn [filter]. rewrite (H x (or_introl eq_refl)).
  apply IH. intros y Hy. apply H. right. exact Hy.
Qed.

Lemma listens_none (l : list Event) :
  (forall x, In x l -> startsProxy x = false) -> listens l = [].
Proof.
  induction l as [|x xs IH]; intro H; [reflexivity|].
  pose proof (H x (or_introl eq_refl)) as Hx.
  destruct x; cbn in Hx; try discriminate Hx; cbn [listens];
    apply IH; intros y Hy; apply H; right; exact Hy.
Qed.

Lemma listens_listeningLog (lg : Logger) (a : TCPAddr) :
  listens (listeningLog lg a) = [].
Proof. unfold listeningLog. destruct (log_level lg); reflexivity. Qed.

Lemma prefix_builds (w : World) (o : options) (ips : list Addr) (k : nat)
      (x : Event) :
  In x (optionsLog o ++ firstn k (setupCalls (parsedWorld w o) ips))%list ->
  startsProxy x = false.
Proof.
  intro Hx. apply in_app_or in Hx. destruct Hx as [Hx|Hx].
  - apply (optionsLog_only_logs o x Hx).
  - apply In_firstn in Hx. apply (setupCalls_build _ _ x Hx).
Qed.

Lemma listens_setup (w : World) (o : options) (ips : list Addr) :
  listens (optionsLog o ++ setupCalls (parsedWorld w o) ips) = [].
Proof. exact (listens_none _ (prefix_builds w o ips 5)). Qed.

(** X18: [main] asks for the proxy's listener only after the tunnel has
    been set up completely and its device brought up, and asks exactly
    once in the whole run: on the stack of the exit mode, at the resolved
    listen address. *)
Theorem main_listens_only_after_up
        (h : Host) (w : World) (o : options) (evs : list Event)
        (on : Stack) (a : TCPAddr) :
  hParse h = inr o ->
  trace (snd (main h w)) = (trace w ++ evs)%list ->
  In (EvListenTCP on a) evs ->
  exists ips front back,
    let w0 := parsedWorld w o in
    SetupOk h w0 ips
    /\ evs = (front ++ EvListenTCP on a :: back)%list
    /\ In (EvUp (sessionDevice w0 ips)) front
    /\ listenOn (ExitMode o) (sessionNet w0 ips) = Some on
    /\ hResolveTCPAddr h (Listen o) = Ok a
    /\ listens evs = [(on, a)].
Proof.
  intros Hparse Htr Hin. run_of_main Hparse Htr evs Hrun.
  inversion Hrun as [e ips k w1 w0 Hs Hw1 Hup
                    | ips e w0 Hok Ha
                    | ips a0 w0 Hok Ha Hon
                    | ips a0 on0 e w0 Hok Ha Hon Hl
                    | ips a0 on0 lg d w0 p0 l0 Hok Ha Hon Hl Hlg Hd];
    subst.
  - exfalso. rewrite app_assoc in Hin. apply in_app_or in Hin.
    destruct Hin as [Hin|[Hin|[]]]; [|discriminate Hin].
    pose proof (prefix_builds w o ips k _ Hin) as H. discriminate H.
  - exfalso. rewrite app_assoc in Hin. apply in_app_or in Hin.
    destruct Hin as [Hin|[Hin|[Hin|[]]]]; try discriminate Hin.
    pose proof (prefix_builds w o ips 5 _ Hin) as H. discriminate H.
  - exfalso. rewrite app_assoc in Hin. apply in_app_or in Hin.
    destruct Hin as [Hin|[Hin|[]]]; try discriminate Hin.
    pose proof (prefix_builds w o ips 5 _ Hin) as H. discriminate H.
  - rewrite app_assoc in Hin. apply in_app_or in Hin.
    destruct Hin as [Hin|[Hin|[Hin|[Hin|[]]]]]; try discriminate Hin.
    { exfalso. pose proof (prefix_builds w o ips 5 _ Hin) as H.
      discriminate H. }
    injection Hin as -> ->.
    exists ips,
      (optionsLog o ++ setupCalls w0 ips ++ [EvResolveTCPAddr (Listen o)])%list.
    eexists. cbv zeta. split; [exact Hok|]. split.
    { rewrite <- !app_assoc. cbn [app]. reflexivity. }
    split.
    { apply in_or_app. right. apply in_or_app. left.
      right; right; right; right; left. reflexivity. }
    repeat split; try assumption.
    subst w0. rewrite app_assoc, listens_app, listens_setup. reflexivity.
  - rewrite app_assoc in Hin. apply in_app_or in Hin.
    destruct Hin as [Hin|Hin].
    { exfalso. pose proof (prefix_builds w o ips 5 _ Hin) as H.
      discriminate H. }
    apply in_app_or in Hin. destruct Hin as [[Hin|[Hin|[]]]|Hin];
      try discriminate Hin.
    + injection Hin as -> ->.
      exists ips,
        (optionsLog o ++ setupCalls w0 ips
         ++ [EvResolveTCPAddr (Listen o)])%list.
      eexists. cbv zeta. split; [exact Hok|]. split.
      { rewrite <- !app_assoc. cbn [app]. reflexivity. }
      split.
      { apply in_or_app. right. apply in_or_app. left.
        right; right; right; right; left. reflexivity. }
      repeat split; try assumption.
      subst w0. rewrite app_assoc, listens_app, listens_setup.
      cbn [app listens]. rewrite listens_app, listens_listeningLog.
      reflexivity.
    + exfalso. apply in_app_or in Hin. destruct Hin as [Hin|[Hin|[]]];
        [|discriminate Hin].
      destruct (listeningLog_only_logs lg a0 _ Hin) as [_ [_ H]].
      exact (H on a eq_refl).
Qed.

Lemma main_listens_only_after_up_witness :
  let o := Sample.config "remote" in
  let w0 := parsedWorld initWorld o in
  let dev := sessionDevice w0 [Addr4 10 0 0 2] in
  let l := mkListener HostStack (Sample.loopback 8080) in
  let p := mkProxy (Some (NetDialContext (sessionNet w0 [Addr4 10 0 0 2])))
                   EmptyString (stats dev) in
  let evs := (setupCalls w0 [Addr4 10 0 0 2]
              ++ [EvResolveTCPAddr "127.0.0.1:8080";
                  EvListenTCP HostStack (Sample.loopback 8080);
                  EvServe p l])%list in
  exists ips front back,
    SetupOk (Sample.host (inr o)) w0 ips
    /\ evs = (front ++ EvListenTCP HostStack (Sample.loopback 8080)
                    :: back)%list
    /\ In (EvUp (sessionDevice w0 ips)) front
    /\ listenOn (ExitMode o) (sessionNet w0 ips) = Some HostStack
    /\ Sample.ResolveTCPAddr (Listen o) = Ok (Sample.loopback 8080)
    /\ listens evs = [(HostStack, Sample.loopback 8080)].
Proof.
  intros o w0 dev l p evs.
  apply (main_listens_only_after_up
           (Sample.host (inr o)) initWorld o evs HostStack
           (Sample.loopback 8080)).
  - reflexivity.
  - reflexivity.
  - cbn. right; right; right; right; right; right; left. reflexivity.
Defined.

(** X19: without [--verbose] nothing is logged at verbose level in the
    whole run of [main]; with it, the parsed options are logged before
    anything else is done. *)
Theorem main_logs_verbosely_only_when_asked
        (h : Host) (w : World) (o : options) (evs : list Event) :
  hParse h = inr o ->
  trace (snd (main h w)) = (trace w ++ evs)%list ->
  (Verbose o = false -> filter isVerboseLog evs = [])
  /\ (Verbose o = true ->
      exists rest,
        evs = EvLog LogLevelVerbose "Options: %+v" (ArgOptions o) :: rest).
Proof.
  intros Hparse Htr. run_of_main Hparse Htr evs Hrun.
  assert (Hquiet : forall k ips,
             Verbose o = false ->
             filter isVerboseLog
                    (optionsLog o
                     ++ firstn k (setupCalls (parsedWorld w o) ips))%list
             = []).
  { intros k ips Hv. apply filter_none. intros x Hx.
    apply in_app_or in Hx. destruct Hx as [Hx|Hx].
    - destruct (optionsLog_only_logs o x Hx) as [Hv' _]. congruence.
    - apply In_firstn in Hx. apply (setupCalls_build _ _ x Hx). }
  assert (Hfull : forall ips,
             Verbose o = false ->
             filter isVerboseLog
                    (optionsLog o ++ setupCalls (parsedWorld w o) ips)%list
             = []).
  { intros ips Hv. exact (Hquiet 5%nat ips Hv). }
  split.
  - intro Hv.
    inversion Hrun as [e ips k w1 w0 Hs Hw1 Hup
                      | ips e w0 Hok Ha
                      | ips a0 w0 Hok Ha Hon
                      | ips a0 on0 e w0 Hok Ha Hon Hl
                      | ips a0 on0 lg d w0 p0 l0 Hok Ha Hon Hl Hlg Hd];
      subst; subst w0; rewrite app_assoc, filter_app.
    + rewrite (Hquiet k ips Hv). reflexivity.
    + rewrite (Hfull ips Hv). reflexivity.
    + rewrite (Hfull ips Hv). reflexivity.
    + rewrite (Hfull ips Hv). reflexivity.
    + rewrite (Hfull ips Hv).
      rewrite parsedWorld_level, Hv in Hlg. injection Hlg as <-.
      reflexivity.
  - intro Hv.
    inversion Hrun; subst; unfold optionsLog; rewrite Hv; cbn [app];
      eexists; reflexivity.
Qed.

Lemma main_logs_verbosely_only_when_asked_witness :
  let o := Sample.config "remote" in
  let w0 := parsedWorld initWorld o in
  let dev := sessionDevice w0 [Addr4 10 0 0 2] in
  let l := mkListener HostStack (Sample.loopback 8080) in
  let p := mkProxy (Some (NetDialContext (sessionNet w0 [Addr4 10 0 0 2])))
                   EmptyString (stats dev) in
  let evs := (setupCalls w0 [Addr4 10 0 0 2]
              ++ [EvResolveTCPAddr "127.0.0.1:8080";
                  EvListenTCP HostStack (Sample.loopback 8080);
                  EvServe p l])%list in
  filter isVerboseLog evs = [].
Proof.
  intros o w0 dev l p evs.
  apply (main_logs_verbosely_only_when_asked
           (Sample.host (inr o)) initWorld o evs).
  - reflexivity.
  - reflexivity.
  - reflexivity.
Defined.

Lemma main_never_panics_witness :
  let o := Sample.config "local" in
  (hParse (Sample.host (inr o)) = inr o
   /\ Flags.acceptsValue "exit-mode" (ExitMode o) = true)
  /\ fst (main (Sample.host (inr o)) initWorld) <> Panicked.
Proof.
  intro o. split; [split; reflexivity|].
  apply (main_never_panics (Sample.host (inr o)) initWorld o); reflexivity.
Defined.

(** X21: [main] never returns: every run ends in [os.Exit], in a panic,
    or inside [Serve]; and a run is still going only when [Serve] was
    called and has not returned. *)
Theorem main_never_returns (h : Host) (w : World) :
  (forall u, fst (main h w) <> Returned u)
  /\ (fst (main h w) = Blocked ->
      exists o p l,
        hParse h = inr o
        /\ In (EvServe p l) (trace (snd (main h w)))
        /\ hServeReturns h p l = false).
Proof.
  destruct (hParse h) as [err|o] eqn:Hp.
  - rewrite (main_parse_error h w err Hp). split; [discriminate|].
    cbn. discriminate.
  - destruct (main_run h w o Hp) as [evs [out [Hm Hrun]]]. rewrite Hm.
    cbn [fst snd trace].
    inversion Hrun as [e ips k w1 w0 Hs Hw1 Hup
                      | ips e w0 Hok Ha
                      | ips a0 w0 Hok Ha Hon
                      | ips a0 on0 e w0 Hok Ha Hon Hl
                      | ips a0 on0 lg d w0 p0 l0 Hok Ha Hon Hl Hlg Hd];
      subst; try (split; discriminate).
    destruct (hServeReturns h p0 l0) eqn:Hret; split; try discriminate.
    intros _. exists o, p0, l0. split; [reflexivity|]. split; [|exact Hret].
    apply in_or_app. right. rewrite !app_assoc. apply in_or_app. right.
    left. reflexivity.
Qed.
